(** * utils/metric.py: the streaming confusion matrix

    A shallow embedding of the [ConfusionMatrix] class of
    [utils/metric.py] and the properties of its methods.

    Conventions of the embedding
    - Python integers are [Z]; [range n] is [seqZ 0 n].
    - The cells of the table are counts.  numpy stores them as 64-bit floats,
      which represent every integer below 2^53 exactly; they are modelled by
      [Z], and the float quotients returned by the metrics by exact rationals
      ([Q]) built from the two operands of the division.
    - A Python exception is a [Raise] in the [result] monad.  A method that
      can mutate [self] before it raises returns an [outcome], which carries
      the object in both cases. *)

From Stdlib Require Import ZArith QArith String Ascii DecimalString.
From stdpp Require Import base decidable option list list_numbers.

Local Open Scope Z_scope.

(** ** Exceptions and the error monad *)

Inductive exn : Set := TypeError | IndexError | ValueError.

Inductive result (A : Type) : Type :=
  | Ok (a : A)
  | Raise (e : exn).
Arguments Ok {A} a.
Arguments Raise {A} e.

#[global] Instance result_ret : MRet result := @Ok.
#[global] Instance result_bind : MBind result := λ A B f m,
  match m with Ok a => f a | Raise e => Raise e end.
#[global] Instance result_fmap : FMap result := λ A B f m,
  match m with Ok a => Ok (f a) | Raise e => Raise e end.

(** [for x in l: acc = body(acc, x)], leaving at the first exception. *)
Fixpoint for_each {A B} (body : B → A → result B) (acc : B) (l : list A)
  : result B :=
  match l with
  | [] => Ok acc
  | x :: l' => acc' ← body acc x; for_each body acc' l'
  end.

(** [range(n)] *)
Definition range (n : Z) : list Z := seqZ 0 n.

(** ** Indexing

    Python sequences and numpy axes accept an index [i] with
    [-len <= i < len]; a negative one counts from the end.  Anything else is
    an [IndexError]. *)

Definition py_index (len : nat) (i : Z) : result nat :=
  if decide (0 ≤ i < Z.of_nat len) then Ok (Z.to_nat i)
  else if decide (- Z.of_nat len ≤ i < 0) then Ok (Z.to_nat (Z.of_nat len + i))
  else Raise IndexError.

(** [l[i]] on a Python list *)
Definition list_getitem {A} (l : list A) (i : Z) : result A :=
  k ← py_index (length l) i;
  match l !! k with Some x => Ok x | None => Raise IndexError end.

(** [l[i] = x] on a Python list *)
Definition list_setitem {A} (l : list A) (i : Z) (x : A) : result (list A) :=
  k ← py_index (length l) i;
  Ok (<[k := x]> l).

(** ** numpy arrays

    Only what the class uses: arrays of one or two axes, [np.zeros], and item
    access through [a[g][p]] and [a[i, j]]. *)

Inductive ndarray : Type :=
  | NdVec (v : list Z)
  | NdMat (m : list (list Z)).

(** The first positional argument of [np.zeros]: an int or a pair. *)
Inductive shape_arg : Type :=
  | ShapeInt (n : Z)
  | ShapePair (r c : Z).

(** The second positional argument of [np.zeros] is [dtype]: left out (64-bit
    float), or, as the constructor of the class passes it, a Python int. *)
Inductive dtype_arg : Type :=
  | DtypeDefault
  | DtypeInt (n : Z).

(** [np.zeros(shape, dtype)].  An int is not a data type: numpy raises
    [TypeError] when it converts the arguments, before any allocation.  A
    negative dimension is a [ValueError]. *)
Definition np_zeros (shape : shape_arg) (dtype : dtype_arg) : result ndarray :=
  match dtype with
  | DtypeInt _ => Raise TypeError
  | DtypeDefault =>
      match shape with
      | ShapeInt n =>
          if decide (n < 0) then Raise ValueError
          else Ok (NdVec (replicate (Z.to_nat n) 0))
      | ShapePair r c =>
          if decide (r < 0 ∨ c < 0) then Raise ValueError
          else Ok (NdMat (replicate (Z.to_nat r) (replicate (Z.to_nat c) 0)))
      end
  end.

(** [a[g][p]]: [a[g]] is a view of row [g]; on an array of one axis it is a
    scalar, and indexing a scalar is an [IndexError]. *)
Definition getitem2 (a : ndarray) (g p : Z) : result Z :=
  match a with
  | NdVec _ => Raise IndexError
  | NdMat m =>
      r ← py_index (length m) g;
      match m !! r with
      | None => Raise IndexError
      | Some row => list_getitem row p
      end
  end.

(** [a[g][p] = x]: the row view shares the array's memory, the write lands in
    [a]. *)
Definition setitem2 (a : ndarray) (g p : Z) (x : Z) : result ndarray :=
  match a with
  | NdVec _ => Raise IndexError
  | NdMat m =>
      r ← py_index (length m) g;
      match m !! r with
      | None => Raise IndexError
      | Some row =>
          row' ← list_setitem row p x;
          Ok (NdMat (<[r := row']> m))
      end
  end.

(** [a[i, j]]: both axes are checked as in [a[i][j]]. *)
Definition getitem_tuple (a : ndarray) (i j : Z) : result Z := getitem2 a i j.

(** ** The class *)

Record ConfusionMatrix : Type := {
  num_classes : Z;
  confusion_matrix : ndarray
}.

(** [ConfusionMatrix(num_classes)]:
[[
    self.num_classes = num_classes
    self.confusion_matrix = np.zeros(self.num_classes, self.num_classes)
]] *)
Definition __init__ (num_classes : Z) : result ConfusionMatrix :=
  a ← np_zeros (ShapeInt num_classes) (DtypeInt num_classes);
  Ok {| num_classes := num_classes; confusion_matrix := a |}.

(** [self.confusion_matrix[ground_truth][predicted] += 1].  When the read
    raises, nothing has been written. *)
Definition count_predicted (self : ConfusionMatrix) (ground_truth predicted : Z)
  : result ConfusionMatrix :=
  v ← getitem2 (confusion_matrix self) ground_truth predicted;
  a ← setitem2 (confusion_matrix self) ground_truth predicted (v + 1);
  Ok {| num_classes := num_classes self; confusion_matrix := a |}.

(** [return self.confusion_matrix[ground_truth][predicted]] *)
Definition get_count (self : ConfusionMatrix) (ground_truth predicted : Z)
  : result Z :=
  getitem2 (confusion_matrix self) ground_truth predicted.

Definition get_confusion_matrix (self : ConfusionMatrix) : ndarray :=
  confusion_matrix self.

(** [l[i] += v] on a Python list *)
Definition list_iadd (l : list Z) (i : Z) (v : Z) : result (list Z) :=
  x ← list_getitem l i;
  list_setitem l i (x + v).

(** [get_intersection_union_per_class]: the three accumulation loops, the
    divisor loop with its zero guard, and the final list of quotients
    [float(matrix_diagonal[i]) / divisor[i]]. *)
Definition get_intersection_union_per_class (self : ConfusionMatrix)
  : result (list Q) :=
  let n := num_classes self in
  let cm := confusion_matrix self in
  matrix_diagonal ← mapM (λ i, getitem2 cm i i) (range n);
  errors_summed_by_row ←
    for_each (λ errs row,
      for_each (λ errs column,
        if decide (row ≠ column)
        then v ← getitem2 cm row column; list_iadd errs row v
        else Ok errs) errs (range n))
      (replicate (Z.to_nat n) 0) (range n);
  errors_summed_by_column ←
    for_each (λ errs column,
      for_each (λ errs row,
        if decide (row ≠ column)
        then v ← getitem2 cm row column; list_iadd errs column v
        else Ok errs) errs (range n))
      (replicate (Z.to_nat n) 0) (range n);
  divisor ←
    for_each (λ divisor i,
      d ← list_getitem matrix_diagonal i;
      r ← list_getitem errors_summed_by_row i;
      c ← list_getitem errors_summed_by_column i;
      divisor ← list_setitem divisor i (d + r + c);
      if decide (d = 0) then list_setitem divisor i 1 else Ok divisor)
      (replicate (Z.to_nat n) 0) (range n);
  mapM (λ i,
    d ← list_getitem matrix_diagonal i;
    v ← list_getitem divisor i;
    Ok (Qdiv (inject_Z d) (inject_Z v))) (range n).

(** ** Bulk load *)

(** What a call leaves behind: the returned value or the exception, and the
    object as it then is. *)
Inductive outcome (A : Type) : Type :=
  | Returned (v : A) (self : ConfusionMatrix)
  | Raised (e : exn) (self : ConfusionMatrix).
Arguments Returned {A} v self.
Arguments Raised {A} e self.

Definition object_after {A} (o : outcome A) : ConfusionMatrix :=
  match o with Returned _ self | Raised _ self => self end.

(** The resize block of the loop:
[[
    b = np.zeros((max_label, max_label))
    for row in range(self.num_classes):
        for column in range(self.num_classes):
            b[row][column] = self.confusion_matrix[row][column]
    self.confusion_matrix = b
    self.num_classes = max_label
]]
    The two attributes are assigned last: an exception in the copy leaves
    [self] as it was. *)
Definition resize (self : ConfusionMatrix) (max_label : Z)
  : result ConfusionMatrix :=
  b ← np_zeros (ShapePair max_label max_label) DtypeDefault;
  b ← for_each (λ b row,
         for_each (λ b column,
           v ← getitem2 (confusion_matrix self) row column;
           setitem2 b row column v) b (range (num_classes self)))
       b (range (num_classes self));
  Ok {| num_classes := max_label; confusion_matrix := b |}.

(** One turn of the [for] loop ends in [continue] (or falls through to the
    next turn), in a [return], or in an exception. *)
Inductive step : Type :=
  | Continue (self : ConfusionMatrix)
  | Return (v : Z) (self : ConfusionMatrix)
  | Throw (e : exn) (self : ConfusionMatrix).

Section BulkLoad.
(** [int(line)] on a line of text; [None] is the [ValueError] of a line that
    is not an integer literal. *)
Variable py_int : string → option Z.

(** The body of the loop, lines 77 to 97.  The [return 0] of line 97 is
    inside the loop. *)
Definition loop_body (self : ConfusionMatrix) (line_gt line_cl : string)
  : step :=
  match py_int line_gt with
  | None => Throw ValueError self
  | Some label_gt =>
  match py_int line_cl with
  | None => Throw ValueError self
  | Some label_cl_ =>
      let label_cl := Z.max (Z.min label_cl_ 10000) 1 in
      if decide (label_cl_ ≠ label_cl) then Return (-1) self
      else
        let max_label := Z.max label_gt label_cl in
        match (if decide (max_label > num_classes self)
               then resize self max_label else Ok self) with
        | Raise e => Throw e self
        | Ok self =>
            if decide (label_gt = 0) then Continue self
            else
              match count_predicted self (label_gt - 1) (label_cl - 1) with
              | Raise e => Throw e self
              | Ok self => Return 0 self
              end
        end
  end end.

(** [for index, (line_gt, line_cl) in enumerate(zip(f_gt, f_cl))]; a loop
    that runs out of pairs falls off the end of the function, which
    returns [None]. *)
Fixpoint loop (self : ConfusionMatrix) (pairs : list (string * string))
  : outcome (option Z) :=
  match pairs with
  | [] => Returned None self
  | (line_gt, line_cl) :: rest =>
      match loop_body self line_gt line_cl with
      | Continue self => loop self rest
      | Return v self => Returned (Some v) self
      | Throw e self => Raised e self
      end
  end.

(** The two files are given as the lines their iteration yields. *)
Definition build_conf_matrix_from_file (self : ConfusionMatrix)
    (f_gt f_cl : list string) : outcome (option Z) :=
  loop self (zip f_gt f_cl).
End BulkLoad.

(** ** The printed table *)

Fixpoint str_repeat (c : ascii) (n : nat) : string :=
  match n with
  | O => EmptyString
  | S n' => String c (str_repeat c n')
  end.

(** Right-justification in a field of [w] characters, as [%ws] does: a text
    longer than the field is not cut. *)
Definition rjust (w : nat) (s : string) : string :=
  String.append (str_repeat " "%char (w - String.length s)) s.

(** ["%{w}.0f" % v] for a float [v] of integral value: its decimal digits,
    right-justified. *)
Definition format_f0 (w : nat) (v : Z) : string :=
  rjust w (NilZero.string_of_int (Z.to_int v)).

(** The truth value of the [hide_threshold] argument in [if hide_threshold:]:
    [None] and [0] are false. *)
Definition truthy (hide_threshold : option Z) : bool :=
  match hide_threshold with
  | None => false
  | Some t => negb (t =? 0)
  end.

(** Lines 115 to 121: the text of the cell in row [i], column [j], holding
    [v]. *)
Definition cell_text (columnwidth : nat) (hide_zeroes hide_diagonal : bool)
    (hide_threshold : option Z) (i j : Z) (v : Z) : string :=
  let empty_cell := str_repeat " "%char columnwidth in
  let cell := format_f0 columnwidth v in
  let cell :=
    if hide_zeroes then (if decide (v ≠ 0) then cell else empty_cell)
    else cell in
  let cell :=
    if hide_diagonal then (if decide (i ≠ j) then cell else empty_cell)
    else cell in
  match hide_threshold with
  | Some t =>
      if truthy hide_threshold
      then (if decide (v > t) then cell else empty_cell)
      else cell
  | None => cell
  end.

Definition newline : string := String (ascii_of_nat 10) EmptyString.

(** [max([len(x) for x in labels] + [5])] *)
Definition columnwidth_of (labels : list string) : nat :=
  max_list ((String.length <$> labels) ++ [5%nat]).

(** [enumerate(labels)] *)
Definition enumerate {A} (l : list A) : list (Z * A) :=
  zip (range (Z.of_nat (length l))) l.

(** [print_cm]: the text written to the standard output.  The method reads
    [self] and assigns nothing to it. *)
Definition print_cm (self : ConfusionMatrix) (labels : list string)
    (hide_zeroes hide_diagonal : bool) (hide_threshold : option Z)
  : outcome string :=
  let cm := get_confusion_matrix self in
  let columnwidth := columnwidth_of labels in
  let empty_cell := str_repeat " "%char columnwidth in
  let sp := String " "%char EmptyString in
  let header :=
    String.append (String.append "    " (String.append empty_cell sp))
      (String.append
         (String.concat ""
            ((λ label, String.append (rjust columnwidth label) sp) <$> labels))
         newline) in
  let rows :=
    for_each (λ out '(i, label1),
      out ← for_each (λ out j,
               v ← getitem_tuple cm i j;
               Ok (String.append out
                     (String.append
                        (cell_text columnwidth hide_zeroes hide_diagonal
                           hide_threshold i j v) sp)))
             (String.append out
                (String.append "    "
                   (String.append (rjust columnwidth label1) sp)))
             (range (Z.of_nat (length labels)));
      Ok (String.append out newline))
      header (enumerate labels) in
  match rows with
  | Ok out => Returned out self
  | Raise e => Raised e self
  end.

(** The main block of the file: a matrix of three classes and five counts. *)
Definition main : result ConfusionMatrix :=
  CM ← __init__ 3;
  CM ← count_predicted CM 0 0;
  CM ← count_predicted CM 1 1;
  CM ← count_predicted CM 2 2;
  CM ← count_predicted CM 0 1;
  count_predicted CM 2 0.

(** ** Concrete lines

    The statements below hold for any reading of [int] on text.  The examples
    run with [int_ascii], the ASCII decimal literals of [int]: blanks, an
    optional sign, digits, blanks. *)

Definition is_space (c : ascii) : bool :=
  let n := nat_of_ascii c in
  (n =? 32)%nat || ((9 <=? n)%nat && (n <=? 13)%nat).

Fixpoint lstrip (s : string) : string :=
  match s with
  | EmptyString => EmptyString
  | String c s' => if is_space c then lstrip s' else s
  end.

Fixpoint all_space (s : string) : bool :=
  match s with
  | EmptyString => true
  | String c s' => is_space c && all_space s'
  end.

Definition digit_of (c : ascii) : option Z :=
  let n := Z.of_nat (nat_of_ascii c) in
  if decide (48 ≤ n ≤ 57) then Some (n - 48) else None.

Fixpoint digits (acc : Z) (seen : bool) (s : string) : option Z :=
  match s with
  | EmptyString => if seen then Some acc else None
  | String c s' =>
      match digit_of c with
      | Some d => digits (10 * acc + d) true s'
      | None => if seen && all_space s then Some acc else None
      end
  end.

Definition int_ascii (line : string) : option Z :=
  match lstrip line with
  | String "-"%char s => Z.opp <$> digits 0 false s
  | String "+"%char s => digits 0 false s
  | s => digits 0 false s
  end.

(** A line as the iteration of a text file yields it: with its newline. *)
Definition line (s : string) : string := String.append s newline.

(** ** Shape of the object *)

(** The table has [n] rows of [n] cells. *)
Definition square (n : Z) (m : list (list Z)) : Prop :=
  Z.of_nat (length m) = n ∧ Forall (λ row, Z.of_nat (length row) = n) m.

(** The invariant of the data model: the table is a square array of
    [num_classes] rows. *)
Definition well_formed (self : ConfusionMatrix) : Prop :=
  match confusion_matrix self with
  | NdMat m => square (num_classes self) m
  | NdVec _ => False
  end.

#[global] Instance well_formed_dec self : Decision (well_formed self).
Proof.
  unfold well_formed, square. destruct (confusion_matrix self); apply _.
Defined.

Definition sumZ (l : list Z) : Z := foldr Z.add 0 l.

(** The sum over all cells of the table. *)
Definition sum_cells (self : ConfusionMatrix) : Z :=
  match confusion_matrix self with
  | NdVec v => sumZ v
  | NdMat m => sumZ (concat m)
  end.

(** An index counted from the end, brought back into [0, n). *)
Definition wrapped (n i : Z) : Z := if decide (i < 0) then n + i else i.

(** The count held at row [r], column [c] (0 outside the table). *)
Definition cell (m : list (list Z)) (r c : nat) : Z :=
  default 0 (m !! r ≫= λ row, row !! c).

(** The table after [a[g][p] = x]. *)
Definition updated (m : list (list Z)) (r c : nat) (x : Z) : list (list Z) :=
  alter (λ row, <[c := x]> row) r m.

(** A sequence of calls [self.count_predicted(g, p)]. *)
Definition count_all (self : ConfusionMatrix) (calls : list (Z * Z))
  : result ConfusionMatrix :=
  for_each (λ self '(g, p), count_predicted self g p) self calls.

(** [CM = ConfusionMatrix(num_classes)] followed by a sequence of calls
    [CM.count_predicted(g, p)], as the main block of the file does. *)
Definition construct_and_count (num_classes : Z) (calls : list (Z * Z))
  : result ConfusionMatrix :=
  CM ← __init__ num_classes;
  count_all CM calls.

(** A table copied into the top left corner of a table of [k] rows of [k]
    zeros. *)
Definition zero_extended (k : nat) (m : list (list Z)) : list (list Z) :=
  ((λ row, row ++ replicate (k - length row) 0) <$> m)
  ++ replicate (k - length m) (replicate k 0).

(** Sample objects: an empty table of two classes, and the table of the main
    block after its five counts. *)
Definition two_classes : ConfusionMatrix :=
  {| num_classes := 2; confusion_matrix := NdMat [[0; 0]; [0; 0]] |}.

Definition three_classes : ConfusionMatrix :=
  {| num_classes := 3;
     confusion_matrix := NdMat [[1; 1; 0]; [0; 1; 0]; [1; 0; 1]] |}.

(** ** The per-class score in the words of the specification

    For a class [c]: [diag] is the cell [(c, c)], [rowErr] the sum of the
    cells [(c, p)] over the classes [p] other than [c], [colErr] the sum of
    the cells [(g, c)] over the classes [g] other than [c]; the denominator
    is their sum, forced to 1 when [diag] is 0; the score is [diag] over the
    denominator. *)

Definition table_of (self : ConfusionMatrix) : list (list Z) :=
  match confusion_matrix self with
  | NdMat m => m
  | NdVec _ => []
  end.

(** The sum of [f p] over the [p] below [n] other than [c]. *)
Definition sum_others (f : nat → Z) (n c : nat) : Z :=
  sumZ (f <$> filter (λ p, p ≠ c) (seq 0 n)).

Definition spec_diag (self : ConfusionMatrix) (c : nat) : Z :=
  cell (table_of self) c c.

Definition spec_rowErr (self : ConfusionMatrix) (c : nat) : Z :=
  sum_others (λ p, cell (table_of self) c p) (Z.to_nat (num_classes self)) c.

Definition spec_colErr (self : ConfusionMatrix) (c : nat) : Z :=
  sum_others (λ g, cell (table_of self) g c) (Z.to_nat (num_classes self)) c.

Definition spec_denom (self : ConfusionMatrix) (c : nat) : Z :=
  if decide (spec_diag self c = 0) then 1
  else spec_diag self c + spec_rowErr self c + spec_colErr self c.

Definition spec_perClassIoU (self : ConfusionMatrix) (c : nat) : Q :=
  Qdiv (inject_Z (spec_diag self c)) (inject_Z (spec_denom self c)).

(** ** Overall accuracy *)

(** [get_overall_accuracy]:
[[
    matrix_diagonal = 0
    all_values = 0
    for row in range(self.num_classes):
        for column in range(self.num_classes):
            all_values += self.confusion_matrix[row][column]
            if row == column:
                matrix_diagonal += self.confusion_matrix[row][column]
    if all_values == 0:
        all_values = 1
    return float(matrix_diagonal) / all_values
]] *)
Definition get_overall_accuracy (self : ConfusionMatrix) : result Q :=
  let n := num_classes self in
  let cm := confusion_matrix self in
  '(matrix_diagonal, all_values) ←
    for_each (λ acc row,
      for_each (λ '(matrix_diagonal, all_values) column,
        v ← getitem2 cm row column;
        let all_values := all_values + v in
        if decide (row = column)
        then w ← getitem2 cm row column; Ok (matrix_diagonal + w, all_values)
        else Ok (matrix_diagonal, all_values)) acc (range n))
      (0, 0) (range n);
  let all_values := if decide (all_values = 0) then 1 else all_values in
  Ok (Qdiv (inject_Z matrix_diagonal) (inject_Z all_values)).

(** The sum of [f i] over the [i] below [n]. *)
Definition sum_upto (f : nat → Z) (n : nat) : Z := sumZ (f <$> seq 0 n).

(** The sum of the diagonal cells. *)
Definition trace (self : ConfusionMatrix) : Z :=
  sum_upto (λ c, cell (table_of self) c c) (Z.to_nat (num_classes self)).

(** Every cell is a count: none is negative. *)
Definition nonneg (self : ConfusionMatrix) : Prop :=
  Forall (Forall (λ x, 0 ≤ x)) (table_of self).

(** The object after the resize guard of the loop ([if max_label >
    self.num_classes]) on an object of the right shape: resized to
    [max_label] when the guard holds, untouched otherwise. *)
Definition grown (self : ConfusionMatrix) (max_label : Z) : ConfusionMatrix :=
  if decide (max_label > num_classes self)
  then {| num_classes := max_label;
          confusion_matrix :=
            NdMat (zero_extended (Z.to_nat max_label) (table_of self)) |}
  else self.

(** What a call may do to an object of the right shape: the shape is kept,
    the class count does not go down, no cell goes down, the cells sum to
    [d] more than before, and counts that were not negative are not
    negative. *)
Definition kept (self self' : ConfusionMatrix) (d : Z) : Prop :=
  well_formed self'
  ∧ num_classes self ≤ num_classes self'
  ∧ (∀ r c, cell (table_of self) r c ≤ cell (table_of self') r c)
  ∧ sum_cells self' = sum_cells self + d
  ∧ (nonneg self → nonneg self').

(** The number of pairs a call of the bulk load has counted: one when it
    returned 0, none otherwise. *)
Definition counted (o : outcome (option Z)) : Z :=
  match o with
  | Returned (Some 0) _ => 1
  | _ => 0
  end.

(** A pair of lines that the loop skips: ground truth 0 and a predicted label
    in [1, 10000]. *)
Definition skipped (py_int : string → option Z) (pair : string * string)
  : Prop :=
  py_int pair.1 = Some 0 ∧ ∃ c, py_int pair.2 = Some c ∧ 1 ≤ c ≤ 10000.

(** ** The printed text in closed form *)

Definition str_concat (l : list string) : string :=
  foldr String.append EmptyString l.

(** The first line: the indentation, an empty cell, and the labels. *)
Definition header_line (labels : list string) : string :=
  let columnwidth := columnwidth_of labels in
  let sp := String " "%char EmptyString in
  String.append
    (String.append "    "
       (String.append (str_repeat " "%char columnwidth) sp))
    (String.append
       (String.concat ""
          ((λ label, String.append (rjust columnwidth label) sp) <$> labels))
       newline).

(** The line of row [i]: the indentation, the label, and one cell for each
    of the first [len(labels)] columns. *)
Definition row_line (self : ConfusionMatrix) (labels : list string)
    (hide_zeroes hide_diagonal : bool) (hide_threshold : option Z)
    (i : Z) (label1 : string) : string :=
  let columnwidth := columnwidth_of labels in
  let sp := String " "%char EmptyString in
  String.append "    "
    (String.append (rjust columnwidth label1)
       (String.append sp
          (String.append
             (str_concat
                ((λ j, String.append
                         (cell_text columnwidth hide_zeroes hide_diagonal
                            hide_threshold i j
                            (cell (table_of self) (Z.to_nat i) (Z.to_nat j)))
                         sp)
                 <$> range (Z.of_nat (length labels))))
             newline))).

Definition table_text (self : ConfusionMatrix) (labels : list string)
    (hide_zeroes hide_diagonal : bool) (hide_threshold : option Z) : string :=
  String.append (header_line labels)
    (str_concat
       ((λ '(i, label1),
           row_line self labels hide_zeroes hide_diagonal hide_threshold
             i label1)
        <$> enumerate labels)).

(** * Properties *)

(** ** Loops over [range] *)

Lemma bind_Ok {A B} (a : A) (f : A → result B) : (Ok a ≫= f) = f a.
Proof. reflexivity. Qed.

Lemma for_each_app {A B} (body : B → A → result B) acc l1 l2 :
  for_each body acc (l1 ++ l2) =
  acc' ← for_each body acc l1; for_each body acc' l2.
Proof.
  revert acc. induction l1 as [|x l1 IH]; intros acc; simpl; [done|].
  destruct (body acc x) as [acc'|e]; simpl; [apply IH | done].
Qed.

Lemma range_succ (k : nat) :
  range (Z.of_nat (S k)) = range (Z.of_nat k) ++ [Z.of_nat k].
Proof. unfold range. by rewrite seqZ_S, Z.add_0_l. Qed.

(** The invariant rule of [for k in range(n)]: an invariant that holds of the
    initial accumulator at 0 and is carried by each turn from [k] to [k + 1]
    holds at [n] of the final accumulator, and no turn raises. *)
Lemma for_each_range {B} (body : B → Z → result B) (I : Z → B → Prop) n acc :
  0 ≤ n →
  I 0 acc →
  (∀ k b, 0 ≤ k < n → I k b → ∃ b', body b k = Ok b' ∧ I (k + 1) b') →
  ∃ acc', for_each body acc (range n) = Ok acc' ∧ I n acc'.
Proof.
  intros Hn H0 Hstep.
  cut (∀ k : nat, Z.of_nat k ≤ n →
         ∃ acc', for_each body acc (range (Z.of_nat k)) = Ok acc'
                 ∧ I (Z.of_nat k) acc').
  { intros Hcut. destruct (Hcut (Z.to_nat n)) as (acc' & Hrun & Hinv); [lia|].
    rewrite Z2Nat.id in Hrun, Hinv by done. eauto. }
  induction k as [|k IH]; intros Hk.
  - exists acc. split; [done|]. exact H0.
  - destruct IH as (b & Hrun & Hinv); [lia|].
    destruct (Hstep (Z.of_nat k) b) as (b' & Hbody & Hinv'); [lia|done|].
    exists b'. rewrite range_succ, for_each_app, Hrun. simpl.
    rewrite Hbody. simpl. split; [done|].
    by replace (Z.of_nat (S k)) with (Z.of_nat k + 1) by lia.
Qed.

Lemma mapM_range {B} (f : Z → result B) (g : Z → B) n :
  (∀ k, 0 ≤ k < n → f k = Ok (g k)) →
  mapM f (range n) = Ok (g <$> range n).
Proof.
  intros Hf. unfold range.
  assert (Forall (λ k, 0 ≤ k < n) (seqZ 0 n)) as Hall.
  { apply Forall_seqZ. intros k Hk. lia. }
  induction Hall as [|k l Hk _ IH]; [done|].
  change (mapM f (k :: l)) with (y ← f k; ys ← mapM f l; mret (y :: ys)).
  by rewrite (Hf k Hk), IH.
Qed.

(** ** Indexing *)

Lemma py_index_nonneg len i :
  0 ≤ i < Z.of_nat len → py_index len i = Ok (Z.to_nat i).
Proof. intros Hi. unfold py_index. by rewrite decide_True. Qed.

Lemma py_index_wrapped len i :
  - Z.of_nat len ≤ i < Z.of_nat len →
  py_index len i = Ok (Z.to_nat (wrapped (Z.of_nat len) i)).
Proof.
  intros Hi. unfold py_index, wrapped.
  destruct (decide (i < 0)).
  - rewrite decide_False, decide_True by lia. done.
  - rewrite decide_True by lia. done.
Qed.

Lemma list_getitem_wrapped {A} (l : list A) i :
  - Z.of_nat (length l) ≤ i < Z.of_nat (length l) →
  ∃ x, l !! Z.to_nat (wrapped (Z.of_nat (length l)) i) = Some x
       ∧ list_getitem l i = Ok x.
Proof.
  intros Hi. unfold list_getitem. rewrite py_index_wrapped by done. cbn.
  destruct (lookup_lt_is_Some_2 l (Z.to_nat (wrapped (Z.of_nat (length l)) i)))
    as [x Hx].
  { unfold wrapped. case_decide; lia. }
  exists x. by rewrite Hx.
Qed.

Lemma list_getitem_nonneg {A} (l : list A) i x :
  0 ≤ i → l !! Z.to_nat i = Some x → list_getitem l i = Ok x.
Proof.
  intros Hi Hx. unfold list_getitem.
  apply lookup_lt_Some in Hx as Hlt.
  rewrite py_index_nonneg by lia. cbn. by rewrite Hx.
Qed.

Lemma list_setitem_nonneg {A} (l : list A) i x :
  0 ≤ i < Z.of_nat (length l) →
  list_setitem l i x = Ok (<[Z.to_nat i := x]> l).
Proof. intros Hi. unfold list_setitem. by rewrite py_index_nonneg. Qed.

(** ** Cells of a square table *)

Lemma square_row n m r :
  square n m → (r < Z.to_nat n)%nat →
  ∃ row, m !! r = Some row ∧ Z.of_nat (length row) = n.
Proof.
  intros [Hlen Hrows] Hr.
  destruct (lookup_lt_is_Some_2 m r) as [row Hrow]; [lia|].
  exists row. split; [done|].
  by apply (Forall_lookup_1 _ _ _ _ Hrows Hrow).
Qed.

Lemma getitem2_wrapped n m g p :
  square n m → - n ≤ g < n → - n ≤ p < n →
  getitem2 (NdMat m) g p
  = Ok (cell m (Z.to_nat (wrapped n g)) (Z.to_nat (wrapped n p))).
Proof.
  intros Hsq Hg Hp. pose proof Hsq as [Hlen _]. unfold getitem2.
  rewrite py_index_wrapped by lia. cbn. rewrite Hlen.
  destruct (square_row n m (Z.to_nat (wrapped n g)) Hsq) as (row & Hrow & Hl).
  { unfold wrapped. case_decide; lia. }
  rewrite Hrow.
  destruct (list_getitem_wrapped row p) as (x & Hx & ->); [lia|].
  unfold cell. rewrite Hrow. cbn. rewrite Hl in Hx. by rewrite Hx.
Qed.

Lemma getitem2_nonneg n m g p :
  square n m → 0 ≤ g < n → 0 ≤ p < n →
  getitem2 (NdMat m) g p = Ok (cell m (Z.to_nat g) (Z.to_nat p)).
Proof.
  intros Hsq Hg Hp. rewrite (getitem2_wrapped n) by (done || lia).
  unfold wrapped. by rewrite !decide_False by lia.
Qed.

Lemma updated_square n m r c x : square n m → square n (updated m r c x).
Proof.
  intros [Hlen Hrows]. unfold updated. split.
  - by rewrite length_alter.
  - apply Forall_alter; [done|]. intros row Hrow. by rewrite length_insert.
Qed.

Lemma cell_updated n m r c x r' c' :
  square n m → (r < Z.to_nat n)%nat → (c < Z.to_nat n)%nat →
  cell (updated m r c x) r' c'
  = if decide (r' = r ∧ c' = c) then x else cell m r' c'.
Proof.
  intros Hsq Hr Hc. unfold cell, updated.
  destruct (square_row n m r Hsq Hr) as (row & Hrow & Hl).
  destruct (decide (r' = r)) as [->|Hne].
  - rewrite list_lookup_alter_eq, Hrow. cbn.
    destruct (decide (c' = c)) as [->|Hnc].
    + rewrite decide_True by done.
      rewrite list_lookup_insert_eq by lia. done.
    + rewrite decide_False by tauto.
      rewrite list_lookup_insert_ne by done. done.
  - rewrite decide_False by tauto.
    by rewrite list_lookup_alter_ne.
Qed.

Lemma setitem2_wrapped n m g p x :
  square n m → - n ≤ g < n → - n ≤ p < n →
  setitem2 (NdMat m) g p x
  = Ok (NdMat (updated m (Z.to_nat (wrapped n g)) (Z.to_nat (wrapped n p)) x)).
Proof.
  intros Hsq Hg Hp. pose proof Hsq as [Hlen _]. unfold setitem2.
  rewrite py_index_wrapped by lia. cbn. rewrite Hlen.
  destruct (square_row n m (Z.to_nat (wrapped n g)) Hsq) as (row & Hrow & Hl).
  { unfold wrapped. case_decide; lia. }
  rewrite Hrow. unfold list_setitem.
  rewrite py_index_wrapped by lia. cbn. rewrite Hl.
  do 2 f_equal. unfold updated.
  apply list_eq. intros k.
  destruct (decide (k = Z.to_nat (wrapped n g))) as [->|Hne].
  - rewrite list_lookup_alter_eq, Hrow. cbn.
    rewrite list_lookup_insert_eq; [done|].
    apply lookup_lt_Some in Hrow. done.
  - by rewrite list_lookup_alter_ne, list_lookup_insert_ne.
Qed.

Lemma setitem2_nonneg n m g p x :
  square n m → 0 ≤ g < n → 0 ≤ p < n →
  setitem2 (NdMat m) g p x = Ok (NdMat (updated m (Z.to_nat g) (Z.to_nat p) x)).
Proof.
  intros Hsq Hg Hp. rewrite (setitem2_wrapped n) by (done || lia).
  unfold wrapped. by rewrite !decide_False by lia.
Qed.

Lemma sumZ_app l1 l2 : sumZ (l1 ++ l2) = sumZ l1 + sumZ l2.
Proof.
  induction l1 as [|x l1 IH]; [done|].
  change (x + sumZ (l1 ++ l2) = x + sumZ l1 + sumZ l2). rewrite IH. lia.
Qed.

Lemma sumZ_insert (l : list Z) k x y :
  l !! k = Some y → sumZ (<[k := x]> l) = sumZ l - y + x.
Proof.
  revert k. induction l as [|z l IH]; intros [|k] Hk; try done;
    cbn -[sumZ] in *.
  - injection Hk as ->. unfold sumZ. cbn. lia.
  - change (z + sumZ (<[k:=x]> l) = z + sumZ l - y + x). rewrite (IH k Hk). lia.
Qed.

Lemma sumZ_concat_alter (m : list (list Z)) f r row :
  m !! r = Some row →
  sumZ (concat (alter f r m)) = sumZ (concat m) - sumZ row + sumZ (f row).
Proof.
  revert r. induction m as [|row' m IH]; intros [|r] Hr; try done;
    cbn -[sumZ] in *.
  - injection Hr as ->. rewrite !sumZ_app. lia.
  - rewrite !sumZ_app, (IH r Hr). lia.
Qed.

Lemma sumZ_replicate_0 k : sumZ (replicate k 0) = 0.
Proof. induction k as [|k IH]; [done|]. exact IH. Qed.

Lemma sumZ_updated n m r c x :
  square n m → (r < Z.to_nat n)%nat → (c < Z.to_nat n)%nat →
  sumZ (concat (updated m r c x)) = sumZ (concat m) - cell m r c + x.
Proof.
  intros Hsq Hr Hc. unfold updated, cell.
  destruct (square_row n m r Hsq Hr) as (row & Hrow & Hl).
  destruct (lookup_lt_is_Some_2 row c) as [y Hy]; [lia|].
  rewrite (sumZ_concat_alter _ _ _ _ Hrow), (sumZ_insert _ _ _ _ Hy).
  rewrite Hrow. cbn. rewrite Hy. cbn. lia.
Qed.

(** ** The constructor *)

(** The other allocation of the file, [np.zeros((max_label, max_label))],
    passes the shape as one pair and gets the square table of zeros. *)
Lemma np_zeros_pair n :
  0 ≤ n →
  np_zeros (ShapePair n n) DtypeDefault
  = Ok (NdMat (replicate (Z.to_nat n) (replicate (Z.to_nat n) 0))).
Proof. intros Hn. cbn. rewrite decide_False by lia. done. Qed.

Lemma replicate_square n :
  0 ≤ n → square n (replicate (Z.to_nat n) (replicate (Z.to_nat n) 0)).
Proof.
  intros Hn. split.
  - rewrite length_replicate. lia.
  - apply Forall_replicate. rewrite length_replicate. lia.
Qed.

Lemma cell_replicate k r c : cell (replicate k (replicate k 0)) r c = 0.
Proof.
  unfold cell.
  destruct (replicate k (replicate k 0) !! r) as [row|] eqn:Hrow; [|done].
  apply lookup_replicate in Hrow as [-> _]. cbn.
  destruct (replicate k 0 !! c) as [x|] eqn:Hx; [|done].
  by apply lookup_replicate in Hx as [-> _].
Qed.

(** C1: the claim is that [ConfusionMatrix(classCount)] succeeds with a
    square table of zeros for every [classCount >= 1].  The constructor
    passes [num_classes] twice to [np.zeros], the second time in the place
    of the data type: it raises [TypeError] for every class count and no
    object is built. *)
Theorem init_raises_TypeError (classCount : Z) :
  __init__ classCount = Raise TypeError.
Proof. reflexivity. Qed.

(** ** [count_predicted] *)

Lemma count_predicted_wrapped self m g p :
  confusion_matrix self = NdMat m →
  square (num_classes self) m →
  - num_classes self ≤ g < num_classes self →
  - num_classes self ≤ p < num_classes self →
  let r := Z.to_nat (wrapped (num_classes self) g) in
  let c := Z.to_nat (wrapped (num_classes self) p) in
  count_predicted self g p
  = Ok {| num_classes := num_classes self;
          confusion_matrix := NdMat (updated m r c (cell m r c + 1)) |}.
Proof.
  intros Hm Hsq Hg Hp r c. unfold count_predicted. rewrite Hm.
  rewrite (getitem2_wrapped _ _ _ _ Hsq Hg Hp), bind_Ok.
  rewrite (setitem2_wrapped _ _ _ _ _ Hsq Hg Hp). done.
Qed.

Lemma wrapped_range n i : - n ≤ i < n → 0 ≤ wrapped n i < n.
Proof. intros Hi. unfold wrapped. case_decide; lia. Qed.

Lemma get_count_nonneg self m g p :
  confusion_matrix self = NdMat m →
  square (num_classes self) m →
  0 ≤ g < num_classes self → 0 ≤ p < num_classes self →
  get_count self g p = Ok (cell m (Z.to_nat g) (Z.to_nat p)).
Proof.
  intros Hm Hsq Hg Hp. unfold get_count. rewrite Hm.
  by apply (getitem2_nonneg (num_classes self)).
Qed.

(** A valid call keeps the shape and adds one to the sum of the cells. *)
Lemma count_predicted_sum self g p :
  well_formed self →
  - num_classes self ≤ g < num_classes self →
  - num_classes self ≤ p < num_classes self →
  ∃ self', count_predicted self g p = Ok self'
    ∧ well_formed self'
    ∧ num_classes self' = num_classes self
    ∧ sum_cells self' = sum_cells self + 1.
Proof.
  intros Hwf Hg Hp. unfold well_formed in Hwf.
  destruct (confusion_matrix self) as [|m] eqn:Hm; [done|].
  eexists. split; [by apply (count_predicted_wrapped self m)|].
  pose proof (wrapped_range _ _ Hg). pose proof (wrapped_range _ _ Hp).
  split; [|split; [done|]].
  - unfold well_formed. cbn. by apply updated_square.
  - unfold sum_cells. rewrite Hm. cbn.
    rewrite (sumZ_updated (num_classes self)) by (done || lia). lia.
Qed.

(** Any sequence of calls with indices in [0, classCount), from any object
    of the right shape, adds the number of calls to the sum of the cells. *)
Lemma count_all_sum self calls :
  well_formed self →
  Forall (λ '(g, p), 0 ≤ g < num_classes self ∧ 0 ≤ p < num_classes self)
    calls →
  ∃ self', count_all self calls = Ok self'
    ∧ well_formed self'
    ∧ num_classes self' = num_classes self
    ∧ sum_cells self' = sum_cells self + Z.of_nat (length calls).
Proof.
  intros Hwf Hcalls. revert self Hwf Hcalls.
  induction calls as [|[g p] calls IH]; intros self Hwf Hcalls.
  - exists self. cbn. repeat split; [done|lia].
  - apply Forall_cons in Hcalls as [[Hg Hp] Hcalls].
    destruct (count_predicted_sum self g p) as (self1 & Hrun & Hwf1 & Hn & Hs);
      [done|lia|lia|].
    destruct (IH self1) as (self' & Hrun' & Hwf' & Hn' & Hs'); [done|by rewrite Hn|].
    exists self'. unfold count_all in *. cbn. rewrite Hrun. cbn.
    repeat split; [done|done|congruence|].
    rewrite Hs', Hs. cbn [length]. lia.
Qed.

(** C7: the claim is that after any sequence of [count_predicted] calls with
    valid indices on a freshly constructed accumulator the cells sum to the
    number of calls.  No such sequence runs: the construction raises
    [TypeError] before the first call, whatever the class count and the
    calls ([count_all_sum] is what the calls do to an object of the right
    shape). *)
Theorem construct_and_count_raises (classCount : Z) (calls : list (Z * Z)) :
  construct_and_count classCount calls = Raise TypeError
  ∧ main = Raise TypeError.
Proof. split; reflexivity. Qed.

(** C10: [count_predicted] with a negative index down to [-classCount], as
    ground truth or as prediction, raises nothing: the call returns, the cell
    at the index counted from the end ([classCount + g]) has one more count,
    the other cells are as before, and the object is the one the call with
    the wrapped indices leaves. *)
Theorem count_predicted_negative_index_wraps self g p :
  well_formed self →
  - num_classes self ≤ g < num_classes self →
  - num_classes self ≤ p < num_classes self →
  g < 0 ∨ p < 0 →
  let g' := if decide (g < 0) then num_classes self + g else g in
  let p' := if decide (p < 0) then num_classes self + p else p in
  ∃ self' v,
    count_predicted self g p = Ok self'
    ∧ get_count self g' p' = Ok v
    ∧ get_count self' g' p' = Ok (v + 1)
    ∧ (∀ r c, 0 ≤ r < num_classes self → 0 ≤ c < num_classes self →
         (r, c) ≠ (g', p') → get_count self' r c = get_count self r c)
    ∧ count_predicted self g' p' = Ok self'.
Proof.
  intros Hwf Hg Hp _ g' p'. unfold well_formed in Hwf.
  destruct (confusion_matrix self) as [|m] eqn:Hm; [done|].
  change g' with (wrapped (num_classes self) g).
  change p' with (wrapped (num_classes self) p).
  pose proof (wrapped_range _ _ Hg) as Hg'.
  pose proof (wrapped_range _ _ Hp) as Hp'.
  set (gw := wrapped (num_classes self) g) in *.
  set (pw := wrapped (num_classes self) p) in *.
  eexists _, (cell m (Z.to_nat gw) (Z.to_nat pw)).
  split; [by apply (count_predicted_wrapped self m)|].
  split; [by apply get_count_nonneg|].
  split; [|split].
  - erewrite get_count_nonneg;
      [|reflexivity|by apply updated_square|done|done].
    rewrite (cell_updated (num_classes self)) by (done || lia).
    by rewrite decide_True.
  - intros r c Hr Hc Hne.
    erewrite get_count_nonneg;
      [|reflexivity|by apply updated_square|done|done].
    rewrite (get_count_nonneg _ _ _ _ Hm) by done.
    rewrite (cell_updated (num_classes self)) by (done || lia).
    rewrite decide_False; [done|].
    intros [Hr' Hc']. apply Hne. f_equal; lia.
  - rewrite (count_predicted_wrapped self m) by (done || lia).
    unfold wrapped. rewrite !decide_False by lia. done.
Qed.

(** ** The resize block *)

Lemma resize_copy self m n' :
  confusion_matrix self = NdMat m →
  square (num_classes self) m →
  num_classes self ≤ n' →
  ∃ b, resize self n' = Ok {| num_classes := n'; confusion_matrix := NdMat b |}
    ∧ square n' b
    ∧ ∀ r c, cell b r c
             = if decide (Z.of_nat r < num_classes self
                          ∧ Z.of_nat c < num_classes self)
               then cell m r c else 0.
Proof.
  intros Hm Hsq Hle. set (n := num_classes self) in *.
  assert (0 ≤ n) as Hn by (destruct Hsq; lia).
  unfold resize. rewrite np_zeros_pair, bind_Ok, Hm by lia. fold n.
  pose (I := λ (k : Z) (a : ndarray), ∃ b, a = NdMat b ∧ square n' b ∧
    ∀ r c, cell b r c
           = if decide (Z.of_nat r < k ∧ Z.of_nat c < n)
             then cell m r c else 0).
  match goal with |- context [for_each ?body ?acc (range n)] =>
    destruct (for_each_range body I n acc) as (a & -> & b & -> & Hb & Hcells)
  end; [done| | |].
  - eexists. split; [done|]. split; [apply replicate_square; lia|].
    intros r c. rewrite cell_replicate. case_decide; [lia|done].
  - intros k a Hk (b & -> & Hb & Hcells).
    pose (J := λ (j : Z) (a : ndarray), ∃ b, a = NdMat b ∧ square n' b ∧
      ∀ r c, cell b r c
             = if decide ((Z.of_nat r < k ∧ Z.of_nat c < n)
                          ∨ (Z.of_nat r = k ∧ Z.of_nat c < j))
               then cell m r c else 0).
    match goal with |- context [for_each ?body ?acc (range n)] =>
      destruct (for_each_range body J n acc) as (a & -> & b' & -> & Hb' & Hc')
    end; [done| | |].
    + exists b. split; [done|]. split; [done|].
      intros r c. rewrite Hcells. repeat case_decide; done || lia.
    + intros j a Hj (b0 & -> & Hb0 & Hc0).
      rewrite (getitem2_nonneg n) by done. rewrite bind_Ok.
      rewrite (setitem2_nonneg n') by (done || lia).
      eexists. split; [done|]. eexists. split; [done|].
      split; [by apply updated_square|].
      intros r c. rewrite (cell_updated n') by (done || lia).
      rewrite Hc0. repeat case_decide; try (done || lia).
      f_equal; lia.
    + eexists. split; [done|]. eexists. split; [done|]. split; [done|].
      intros r c. rewrite Hc'. repeat case_decide; done || lia.
  - rewrite bind_Ok. exists b. split; [done|]. split; [done|].
    intros r c. rewrite Hcells. repeat case_decide; done || lia.
Qed.

Lemma square_ext n m1 m2 :
  square n m1 → square n m2 →
  (∀ r c, cell m1 r c = cell m2 r c) → m1 = m2.
Proof.
  intros [Hl1 Hr1] [Hl2 Hr2] Hcells. apply list_eq. intros r.
  destruct (m1 !! r) as [row1|] eqn:H1, (m2 !! r) as [row2|] eqn:H2.
  - f_equal. apply list_eq. intros c.
    pose proof (Forall_lookup_1 _ _ _ _ Hr1 H1) as Hlen1.
    pose proof (Forall_lookup_1 _ _ _ _ Hr2 H2) as Hlen2. cbn in *.
    specialize (Hcells r c). unfold cell in Hcells. rewrite H1, H2 in Hcells.
    cbn in Hcells.
    destruct (row1 !! c) as [x|] eqn:Hx, (row2 !! c) as [y|] eqn:Hy;
      cbn in *; [by subst| | |done].
    + apply lookup_lt_Some in Hx. apply lookup_ge_None in Hy. lia.
    + apply lookup_lt_Some in Hy. apply lookup_ge_None in Hx. lia.
  - apply lookup_lt_Some in H1. apply lookup_ge_None in H2. lia.
  - apply lookup_lt_Some in H2. apply lookup_ge_None in H1. lia.
  - done.
Qed.

Lemma zero_extended_square n k m :
  square n m → n ≤ Z.of_nat k → square (Z.of_nat k) (zero_extended k m).
Proof.
  intros [Hlen Hrows] Hle. unfold zero_extended. split.
  - rewrite length_app, length_fmap, length_replicate. lia.
  - apply Forall_app. split.
    + apply Forall_fmap. eapply Forall_impl; [exact Hrows|].
      intros row Hrow. cbn in *. rewrite length_app, length_replicate. lia.
    + apply Forall_replicate. rewrite length_replicate. done.
Qed.

Lemma cell_zero_extended n k m r c :
  square n m → n ≤ Z.of_nat k →
  cell (zero_extended k m) r c
  = if decide (Z.of_nat r < n ∧ Z.of_nat c < n) then cell m r c else 0.
Proof.
  intros Hsq Hle. pose proof Hsq as [Hlen Hrows]. unfold cell, zero_extended.
  destruct (decide (r < length m)%nat) as [Hr|Hr].
  - rewrite lookup_app_l by (rewrite length_fmap; lia).
    rewrite list_lookup_fmap.
    destruct (square_row n m r Hsq) as (row & Hrow & Hl); [lia|].
    rewrite Hrow. cbn.
    destruct (decide (c < length row)%nat) as [Hc|Hc].
    + rewrite lookup_app_l by done. rewrite decide_True by lia. done.
    + rewrite decide_False by lia.
      destruct ((row ++ replicate (k - length row) 0) !! c) as [x|] eqn:Hx;
        [|done].
      rewrite lookup_app_r in Hx by lia.
      by apply lookup_replicate in Hx as [-> _].
  - rewrite decide_False by lia.
    rewrite lookup_app_r by (rewrite length_fmap; lia).
    destruct (replicate (k - length m) (replicate k 0) !! _) as [row|] eqn:Hrow;
      [|done].
    apply lookup_replicate in Hrow as [-> _]. cbn.
    destruct (replicate k 0 !! c) as [x|] eqn:Hx; [|done].
    by apply lookup_replicate in Hx as [-> _].
Qed.

Lemma sumZ_zero_rows a k : sumZ (concat (replicate a (replicate k 0))) = 0.
Proof.
  induction a as [|a IH]; [done|].
  change (sumZ (replicate k 0 ++ concat (replicate a (replicate k 0))) = 0).
  rewrite sumZ_app, sumZ_replicate_0, IH. done.
Qed.

Lemma sumZ_zero_extended k m :
  sumZ (concat (zero_extended k m)) = sumZ (concat m).
Proof.
  unfold zero_extended. rewrite concat_app, sumZ_app, sumZ_zero_rows.
  induction m as [|row m IH]; [done|].
  change (sumZ ((row ++ replicate (k - length row) 0)
                ++ concat ((λ row, row ++ replicate (k - length row) 0) <$> m))
          + 0 = sumZ (row ++ concat m)).
  rewrite !sumZ_app, sumZ_replicate_0. lia.
Qed.

(** The resize block in closed form. *)
Lemma resize_zero_extended self m n' :
  confusion_matrix self = NdMat m →
  square (num_classes self) m →
  num_classes self ≤ n' →
  resize self n'
  = Ok {| num_classes := n';
          confusion_matrix := NdMat (zero_extended (Z.to_nat n') m) |}.
Proof.
  intros Hm Hsq Hle.
  assert (0 ≤ num_classes self) as Hn by (destruct Hsq; lia).
  destruct (resize_copy self m n' Hm Hsq Hle) as (b & -> & Hb & Hcells).
  do 3 f_equal. apply (square_ext n'); [done| |].
  - rewrite <- (Z2Nat.id n') at 1 by lia.
    apply (zero_extended_square (num_classes self)); [done|lia].
  - intros r c.
    rewrite Hcells, (cell_zero_extended (num_classes self)) by (done || lia).
    done.
Qed.

(** C6: when the table of a well-formed object of [classCount] classes is
    resized to a larger [n], the call succeeds, [num_classes] becomes [n], the
    table is square of side [n], every cell [(g, p)] with [g, p < classCount]
    keeps its count, every other cell of the new table reads 0 (and the sum
    of the cells is unchanged). *)
Theorem resize_preserves_counts self n :
  well_formed self →
  num_classes self < n →
  ∃ self',
    resize self n = Ok self'
    ∧ num_classes self' = n
    ∧ well_formed self'
    ∧ (∀ g p, 0 ≤ g < num_classes self → 0 ≤ p < num_classes self →
         get_count self' g p = get_count self g p)
    ∧ (∀ g p, 0 ≤ g < n → 0 ≤ p < n →
         ¬ (g < num_classes self ∧ p < num_classes self) →
         get_count self' g p = Ok 0)
    ∧ sum_cells self' = sum_cells self.
Proof.
  intros Hwf Hlt. unfold well_formed in Hwf.
  destruct (confusion_matrix self) as [|m] eqn:Hm; [done|].
  assert (0 ≤ num_classes self) as Hn by (destruct Hwf; lia).
  assert (square n (zero_extended (Z.to_nat n) m)) as Hsq'.
  { rewrite <- (Z2Nat.id n) at 1 by lia.
    apply (zero_extended_square (num_classes self)); [done|lia]. }
  eexists. split; [apply (resize_zero_extended self m); done || lia|].
  split; [done|]. split; [done|]. split; [|split].
  - intros g p Hg Hp.
    erewrite get_count_nonneg; [|reflexivity|done|cbn; lia|cbn; lia].
    rewrite (get_count_nonneg _ _ _ _ Hm) by done.
    rewrite (cell_zero_extended (num_classes self)) by (done || lia).
    rewrite decide_True by lia. done.
  - intros g p Hg Hp Hout.
    erewrite get_count_nonneg; [|reflexivity|done|cbn; lia|cbn; lia].
    rewrite (cell_zero_extended (num_classes self)) by (done || lia).
    rewrite decide_False by lia. done.
  - unfold sum_cells. rewrite Hm. cbn. apply sumZ_zero_extended.
Qed.

(** The same facts in the form the bulk load uses them. *)
Lemma resize_effect self n :
  well_formed self →
  num_classes self < n →
  ∃ self',
    resize self n = Ok self'
    ∧ num_classes self' = n
    ∧ well_formed self'
    ∧ (∀ g p, 0 ≤ g < num_classes self → 0 ≤ p < num_classes self →
         get_count self' g p = get_count self g p)
    ∧ (∀ g p, 0 ≤ g < n → 0 ≤ p < n →
         ¬ (g < num_classes self ∧ p < num_classes self) →
         get_count self' g p = Ok 0)
    ∧ sum_cells self' = sum_cells self.
Proof.
  intros Hwf Hlt. unfold well_formed in Hwf.
  destruct (confusion_matrix self) as [|m] eqn:Hm; [done|].
  assert (0 ≤ num_classes self) as Hn by (destruct Hwf; lia).
  assert (square n (zero_extended (Z.to_nat n) m)) as Hsq'.
  { rewrite <- (Z2Nat.id n) at 1 by lia.
    apply (zero_extended_square (num_classes self)); [done|lia]. }
  eexists. split; [apply (resize_zero_extended self m); done || lia|].
  split; [done|]. split; [done|]. split; [|split].
  - intros g p Hg Hp.
    erewrite get_count_nonneg; [|reflexivity|done|cbn; lia|cbn; lia].
    rewrite (get_count_nonneg _ _ _ _ Hm) by done.
    rewrite (cell_zero_extended (num_classes self)) by (done || lia).
    rewrite decide_True by lia. done.
  - intros g p Hg Hp Hout.
    erewrite get_count_nonneg; [|reflexivity|done|cbn; lia|cbn; lia].
    rewrite (cell_zero_extended (num_classes self)) by (done || lia).
    rewrite decide_False by lia. done.
  - unfold sum_cells. rewrite Hm. cbn. apply sumZ_zero_extended.
Qed.

(** ** Bulk load *)

Lemma resize_num_classes self n self' :
  resize self n = Ok self' → num_classes self' = n.
Proof.
  unfold resize. destruct (np_zeros _ _) as [b|e]; [|done].
  rewrite bind_Ok. destruct (for_each _ _ _) as [b'|e]; [|done].
  rewrite bind_Ok. by intros [= <-].
Qed.

Lemma foldl_max_le n l : n ≤ foldl Z.max n l.
Proof.
  revert n. induction l as [|x l IH]; intros n; cbn; [lia|].
  specialize (IH (Z.max n x)). lia.
Qed.

Section BulkLoadProperties.
Variable py_int : string → option Z.

Lemma loop_app self pre rest self1 :
  loop py_int self pre = Returned None self1 →
  loop py_int self (pre ++ rest) = loop py_int self1 rest.
Proof.
  revert self. induction pre as [|[lg lc] pre IH]; intros self; cbn.
  - by intros [= ->].
  - destruct (loop_body py_int self lg lc); [apply IH|done..].
Qed.

Lemma loop_body_invalid self line_gt line_cl g c :
  py_int line_gt = Some g → py_int line_cl = Some c →
  ¬ (1 ≤ c ≤ 10000) →
  loop_body py_int self line_gt line_cl = Return (-1) self.
Proof.
  intros Hg Hc Hout. unfold loop_body. rewrite Hg, Hc.
  rewrite decide_True by lia. done.
Qed.

(** A turn that ends in [return -1] is a failed validation, and has
    changed nothing. *)
Lemma loop_body_failure self line_gt line_cl self' :
  loop_body py_int self line_gt line_cl = Return (-1) self' →
  self' = self ∧ ∃ c, py_int line_cl = Some c ∧ ¬ (1 ≤ c ≤ 10000).
Proof.
  unfold loop_body.
  destruct (py_int line_gt) as [g|]; [|done].
  destruct (py_int line_cl) as [c|]; [|done].
  destruct (decide (c ≠ Z.max (Z.min c 10000) 1)) as [Hc|Hc].
  - intros [= <-]. split; [done|]. exists c. split; [done|lia].
  - destruct (if decide _ then _ else _) as [self1|e]; [|done].
    destruct (decide (g = 0)); [done|]. by destruct (count_predicted _ _ _).
Qed.

(** A turn that goes on to the next pair read the ground truth 0 and a
    valid predicted label [c]; it has resized the table to [c] when [c] is
    above [num_classes], and changed nothing otherwise. *)
Lemma loop_body_continue self line_gt line_cl self' :
  loop_body py_int self line_gt line_cl = Continue self' →
  py_int line_gt = Some 0
  ∧ ∃ c, py_int line_cl = Some c ∧ 1 ≤ c ≤ 10000
         ∧ (if decide (c > num_classes self)
            then resize self c = Ok self' else self' = self).
Proof.
  unfold loop_body.
  destruct (py_int line_gt) as [g|]; [|done].
  destruct (py_int line_cl) as [c|]; [|done].
  destruct (decide (c ≠ Z.max (Z.min c 10000) 1)) as [Hc|Hc]; [done|].
  destruct (if decide _ then _ else _) as [self1|e] eqn:Hgrow; [|done].
  destruct (decide (g = 0)) as [->|Hg];
    [|by destruct (count_predicted _ _ _)].
  intros [= <-]. split; [done|]. exists c.
  split; [done|]. split; [lia|].
  replace (Z.max 0 (Z.max (Z.min c 10000) 1)) with c in Hgrow by lia.
  case_decide; [done|]. by injection Hgrow as ->.
Qed.

Lemma loop_body_continue_num_classes self line_gt line_cl self' c :
  loop_body py_int self line_gt line_cl = Continue self' →
  py_int line_cl = Some c →
  num_classes self' = Z.max (num_classes self) c.
Proof.
  intros (_ & c' & Hc' & _ & Hgrow)%loop_body_continue Hc.
  assert (c' = c) as -> by congruence.
  case_decide.
  - apply resize_num_classes in Hgrow. lia.
  - subst self'. lia.
Qed.

(** A load that returns [-1] went through [k] skipped pairs and failed the
    validation of pair [k]. *)
Lemma loop_failure self pairs self' :
  loop py_int self pairs = Returned (Some (-1)) self' →
  ∃ k line_gt line_cl c,
    pairs !! k = Some (line_gt, line_cl)
    ∧ loop py_int self (take k pairs) = Returned None self'
    ∧ py_int line_cl = Some c ∧ ¬ (1 ≤ c ≤ 10000)
    ∧ num_classes self'
      = foldl Z.max (num_classes self) (omap py_int (take k pairs).*2).
Proof.
  revert self. induction pairs as [|[lg lc] pairs IH]; intros self; [done|].
  cbn. destruct (loop_body py_int self lg lc) as [self1|v self1|e self1]
    eqn:Hbody; [| |done].
  - intros (k & lg' & lc' & c & Hk & Hpre & Hc & Hout & Hn)%IH.
    exists (S k), lg', lc', c. cbn. rewrite Hbody.
    repeat split; try done.
    pose proof Hbody as (_ & c1 & Hc1 & _)%loop_body_continue.
    rewrite Hc1. cbn.
    rewrite <- (loop_body_continue_num_classes _ _ _ _ _ Hbody Hc1). done.
  - intros [= -> ->].
    apply loop_body_failure in Hbody as (-> & c & Hc & Hout).
    exists 0%nat, lg, lc, c. done.
Qed.

(** The validation step, where the loop comes to it: a pair of lines whose
    predicted label [c] is outside [1, 10000] ([max(1, min(c, 10000)) != c])
    makes its turn of the loop return [-1] at once, whatever the object, which
    it leaves as it is; and the call, when it has fallen through the pairs
    before this one, returns the failure status [-1] there and raises
    nothing. *)
Lemma invalid_predicted_label_aborts self line_gt line_cl g c :
  py_int line_gt = Some g →
  py_int line_cl = Some c →
  Z.max 1 (Z.min c 10000) ≠ c →
  loop_body py_int self line_gt line_cl = Return (-1) self
  ∧ build_conf_matrix_from_file py_int self [line_gt] [line_cl]
    = Returned (Some (-1)) self
  ∧ ∀ self0 pre_gt pre_cl rest_gt rest_cl,
      length pre_gt = length pre_cl →
      build_conf_matrix_from_file py_int self0 pre_gt pre_cl
      = Returned None self →
      build_conf_matrix_from_file py_int self0
        (pre_gt ++ line_gt :: rest_gt) (pre_cl ++ line_cl :: rest_cl)
      = Returned (Some (-1)) self.
Proof.
  intros Hg Hc Hout.
  assert (loop_body py_int self line_gt line_cl = Return (-1) self)
    as Hbody by (apply (loop_body_invalid _ _ _ g c); done || lia).
  split; [done|]. unfold build_conf_matrix_from_file. split.
  - cbn. by rewrite Hbody.
  - intros self0 pre_gt pre_cl rest_gt rest_cl Hlen Hpre.
    rewrite zip_with_app by done.
    rewrite (loop_app _ _ _ _ Hpre). cbn. by rewrite Hbody.
Qed.

(** C4, amended: when the load returns the failure status, the offending
    pair (at some position [k]) has changed nothing, but the [k] pairs
    skipped before it have resized the table to their predicted labels:
    the object is the one the load of the first [k] pairs leaves, and its
    class count is the largest of the class count before the call and the
    predicted labels of these pairs.  It is never below the class count
    before the call, and equal to it when the first pair is the offending
    one. *)
Theorem failed_load_class_count self f_gt f_cl self' :
  build_conf_matrix_from_file py_int self f_gt f_cl
  = Returned (Some (-1)) self' →
  num_classes self ≤ num_classes self'
  ∧ ∃ k c,
      build_conf_matrix_from_file py_int self (take k f_gt) (take k f_cl)
      = Returned None self'
      ∧ (f_cl !! k ≫= py_int) = Some c
      ∧ ¬ (1 ≤ c ≤ 10000)
      ∧ num_classes self'
        = foldl Z.max (num_classes self) (omap py_int (take k f_cl))
      ∧ (k = 0%nat → self' = self).
Proof.
  unfold build_conf_matrix_from_file.
  intros (k & lg & lc & c & Hk & Hpre & Hc & Hout & Hn)%loop_failure.
  apply lookup_zip_with_Some in Hk as (x & y & [= -> ->] & Hx & Hy).
  rewrite zip_with_take in Hpre, Hn.
  rewrite snd_zip in Hn.
  2:{ apply lookup_lt_Some in Hx. rewrite !length_take. lia. }
  split; [rewrite Hn; apply foldl_max_le|].
  exists k, c. rewrite Hy. cbn.
  repeat split; try done.
  intros ->. rewrite !take_0 in Hpre. cbn in Hpre. by injection Hpre.
Qed.

(** One turn of the loop on a pair of lines whose ground-truth label is 0:
    it adds to no cell.  With a predicted label outside [1, 10000] the turn
    returns [-1] and the object is untouched.  With a valid predicted label
    [c] the turn goes on to the next pair; the object is untouched when [c] is
    at most the class count, and otherwise the table has first been resized
    to [c] rows and columns: a larger table, whose old cells keep their
    counts, whose new cells are 0, and whose cells sum to what they did. *)
Lemma skipped_pair_adds_no_count self line_gt line_cl c :
  well_formed self →
  py_int line_gt = Some 0 →
  py_int line_cl = Some c →
  ∃ self',
    loop_body py_int self line_gt line_cl
    = (if decide (1 ≤ c ≤ 10000) then Continue self' else Return (-1) self')
    ∧ (if decide (1 ≤ c ≤ 10000 ∧ num_classes self < c)
       then resize self c = Ok self' ∧ num_classes self' = c
       else self' = self)
    ∧ well_formed self'
    ∧ (∀ g p, 0 ≤ g < num_classes self → 0 ≤ p < num_classes self →
         get_count self' g p = get_count self g p)
    ∧ (∀ g p, 0 ≤ g < num_classes self' → 0 ≤ p < num_classes self' →
         ¬ (g < num_classes self ∧ p < num_classes self) →
         get_count self' g p = Ok 0)
    ∧ sum_cells self' = sum_cells self.
Proof.
  intros Hwf Hg Hc. unfold loop_body. rewrite Hg, Hc.
  destruct (decide (1 ≤ c ≤ 10000)) as [Hin|Hout].
  - rewrite decide_False by lia.
    replace (Z.max 0 (Z.max (Z.min c 10000) 1)) with c by lia.
    destruct (decide (c > num_classes self)) as [Hgt|Hle].
    + destruct (resize_effect self c Hwf)
        as (self' & Hrun & Hn & Hwf' & Hold & Hnew & Hsum); [lia|].
      exists self'. rewrite Hrun, !decide_True by (done || lia).
      rewrite Hn. done.
    + exists self. rewrite decide_True, decide_False by (done || lia).
      repeat split; try done. intros g p ? ? ?. lia.
  - rewrite decide_True by lia. exists self.
    rewrite decide_False by tauto.
    repeat split; try done. intros g p ? ? ?. lia.
Qed.

(** Once a pair with a ground truth other than 0 is recorded the call
    returns: the lines after it are not read. *)
Lemma loop_stops_after_record self line_gt line_cl g rest rest' :
  py_int line_gt = Some g → g ≠ 0 →
  loop py_int self ((line_gt, line_cl) :: rest)
  = loop py_int self ((line_gt, line_cl) :: rest').
Proof.
  intros Hg Hne. cbn.
  destruct (loop_body py_int self line_gt line_cl) as [self1| |] eqn:Hbody;
    [|done..].
  apply loop_body_continue in Hbody as [Hg0 _]. congruence.
Qed.
End BulkLoadProperties.

Ltac solve_shape :=
  unfold well_formed, square; cbn; split; [reflexivity | repeat constructor].

(** C2: the claim is that the load goes through every pair of lines and
    returns the success status after the last one.  The [return 0] of line 97
    is inside the loop: on two files of two lines, labels 1 and 2 on both
    sides, the call records the first pair and returns 0, and the pair (2, 2)
    is never counted; and when every pair is skipped the call falls off the
    loop and returns [None], not a status. *)
Theorem bulk_load_returns_after_first_record :
  build_conf_matrix_from_file int_ascii two_classes
    [line "1"; line "2"] [line "1"; line "2"]
  = Returned (Some 0)
      {| num_classes := 2; confusion_matrix := NdMat [[1; 0]; [0; 0]] |}
  ∧ build_conf_matrix_from_file int_ascii two_classes [line "0"] [line "1"]
    = Returned None two_classes.
Proof. split; reflexivity. Qed.

Lemma invalid_predicted_label_aborts_witness :
  build_conf_matrix_from_file int_ascii two_classes
    [line "0"; line "1"; line "2"] [line "5"; line "0"; line "2"]
  = Returned (Some (-1))
      {| num_classes := 5;
         confusion_matrix := NdMat (replicate 5 (replicate 5 0)) |}.
Proof.
  destruct (invalid_predicted_label_aborts int_ascii
              {| num_classes := 5;
                 confusion_matrix := NdMat (replicate 5 (replicate 5 0)) |}
              (line "1") (line "0") 1 0) as (_ & _ & Hcall);
    [reflexivity | reflexivity | lia |].
  apply (Hcall two_classes [line "0"] [line "5"] [line "2"] [line "2"]);
    reflexivity.
Defined.

(** C4, as stated, fails: a skipped pair with predicted label 5 resizes the
    table of two classes before the next pair fails the validation. *)
Lemma failed_load_changes_class_count :
  ∃ self',
    build_conf_matrix_from_file int_ascii two_classes
      [line "0"; line "0"] [line "5"; line "0"]
    = Returned (Some (-1)) self'
    ∧ num_classes two_classes = 2
    ∧ num_classes self' = 5.
Proof. eexists. split; [reflexivity|]. split; reflexivity. Qed.

Lemma failed_load_class_count_witness :
  num_classes two_classes
  ≤ num_classes {| num_classes := 5;
                   confusion_matrix := NdMat (replicate 5 (replicate 5 0)) |}.
Proof.
  apply (failed_load_class_count int_ascii two_classes
           [line "0"; line "0"] [line "5"; line "0"]).
  reflexivity.
Defined.

(** C8, as stated, fails: the pair (0, 5) replaces the table of two classes
    by a table of five. *)
Lemma skipped_pair_resizes_table :
  int_ascii (line "0") = Some 0
  ∧ ∃ self',
      build_conf_matrix_from_file int_ascii two_classes [line "0"] [line "5"]
      = Returned None self'
      ∧ confusion_matrix two_classes = NdMat [[0; 0]; [0; 0]]
      ∧ confusion_matrix self' = NdMat (replicate 5 (replicate 5 0)).
Proof. split; [reflexivity|]. eexists. repeat split; reflexivity. Qed.

Lemma skipped_pair_adds_no_count_witness :
  ∃ self',
    loop_body int_ascii three_classes (line "0") (line "4") = Continue self'
    ∧ sum_cells self' = sum_cells three_classes.
Proof.
  destruct (skipped_pair_adds_no_count int_ascii three_classes
              (line "0") (line "4") 4)
    as (self' & Hbody & _ & _ & _ & _ & Hsum);
    [solve_shape | reflexivity | reflexivity |].
  exists self'. split; [exact Hbody | exact Hsum].
Defined.

Lemma resize_preserves_counts_witness :
  ∃ self', resize three_classes 5 = Ok self'
    ∧ num_classes self' = 5
    ∧ get_count self' 2 0 = get_count three_classes 2 0
    ∧ get_count self' 4 1 = Ok 0.
Proof.
  destruct (resize_preserves_counts three_classes 5)
    as (self' & Hrun & Hn & _ & Hold & Hnew & _); [solve_shape | cbn; lia |].
  exists self'. split; [exact Hrun|]. split; [exact Hn|]. split.
  - apply Hold; cbn; lia.
  - apply Hnew; cbn; lia.
Defined.

Lemma count_predicted_negative_index_wraps_witness :
  ∃ self' v,
    count_predicted three_classes (-1) (-3) = Ok self'
    ∧ get_count three_classes 2 0 = Ok v
    ∧ get_count self' 2 0 = Ok (v + 1).
Proof.
  destruct (count_predicted_negative_index_wraps three_classes (-1) (-3))
    as (self' & v & Hrun & Hold & Hnew & _);
    [solve_shape | cbn; lia | cbn; lia | lia |].
  exists self', v. split; [exact Hrun|]. split; [exact Hold | exact Hnew].
Defined.

(** ** The printed table *)

Lemma string_of_int_head d :
  ∃ ch rest, NilZero.string_of_int d = String ch rest ∧ ch ≠ " "%char.
Proof. destruct d as [[]|[]]; cbn; eexists _, _; (split; [reflexivity|done]). Qed.

Lemma blanks_app_inv k ch rest w :
  String.append (str_repeat " "%char k) (String ch rest)
  = str_repeat " "%char w → ch = " "%char.
Proof.
  revert w. induction k as [|k IH]; intros [|w]; cbn; try done.
  - by intros [= -> _].
  - intros [= H]. by apply (IH w).
Qed.

Lemma format_f0_not_blank w v : format_f0 w v ≠ str_repeat " "%char w.
Proof.
  unfold format_f0, rjust.
  destruct (string_of_int_head (Z.to_int v)) as (ch & rest & -> & Hch).
  intros Heq. by apply blanks_app_inv in Heq.
Qed.

(** C9, amended: a cell is blank exactly when [hide_zeroes] is set and its
    value is 0, or [hide_diagonal] is set and it is on the diagonal, or a
    threshold [t] other than 0 is given and its value does not exceed [t]; a
    threshold of 0 is read as no threshold.  Every other cell shows its
    value.  The call leaves the object as it is. *)
Theorem cell_blank_iff w hide_zeroes hide_diagonal hide_threshold i j v :
  let suppressed :=
    (hide_zeroes = true ∧ v = 0)
    ∨ (hide_diagonal = true ∧ i = j)
    ∨ (∃ t, hide_threshold = Some t ∧ t ≠ 0 ∧ v ≤ t) in
  (cell_text w hide_zeroes hide_diagonal hide_threshold i j v
   = str_repeat " "%char w ↔ suppressed)
  ∧ (¬ suppressed →
     cell_text w hide_zeroes hide_diagonal hide_threshold i j v
     = format_f0 w v)
  ∧ ∀ self labels,
      object_after
        (print_cm self labels hide_zeroes hide_diagonal hide_threshold)
      = self.
Proof.
  intros suppressed.
  assert (Decision suppressed) as Hdec.
  { unfold suppressed. destruct hide_threshold as [t|].
    - destruct (decide (t ≠ 0 ∧ v ≤ t)) as [Ht|Ht].
      + left. right. right. exists t. tauto.
      + destruct (decide ((hide_zeroes = true ∧ v = 0)
                          ∨ (hide_diagonal = true ∧ i = j))) as [H|H].
        * left. tauto.
        * right. intros [?|[?|(t' & [= <-] & ?)]]; tauto.
    - destruct (decide ((hide_zeroes = true ∧ v = 0)
                        ∨ (hide_diagonal = true ∧ i = j))) as [H|H].
      + left. tauto.
      + right. intros [?|[?|(t' & [=] & ?)]]; tauto. }
  assert (if Hdec
          then cell_text w hide_zeroes hide_diagonal hide_threshold i j v
               = str_repeat " "%char w
          else cell_text w hide_zeroes hide_diagonal hide_threshold i j v
               = format_f0 w v) as Hcell.
  { destruct Hdec as [Hs|Hs]; unfold suppressed in Hs; unfold cell_text, truthy.
    - destruct Hs as [[-> ->]|[[-> ->]|(t & -> & Ht & Hv)]].
      + rewrite (decide_False (P := 0 ≠ 0)) by tauto.
        destruct hide_diagonal, hide_threshold as [t|];
          repeat case_decide; try done; by destruct (negb _).
      + rewrite (decide_False (P := j ≠ j)) by tauto.
        destruct hide_zeroes, hide_threshold as [t|];
          repeat case_decide; try done; by destruct (negb _).
      + apply Z.eqb_neq in Ht. rewrite Ht. cbn.
        rewrite (decide_False (P := v > t)) by lia. done.
    - destruct hide_zeroes, hide_diagonal, hide_threshold as [t|];
        repeat case_decide; try done;
        try (exfalso; apply Hs; tauto);
        destruct (Z.eqb_spec t 0) as [->|Ht]; cbn; try done;
        exfalso; apply Hs; right; right; exists t;
        (split; [done|split; [done|lia]]). }
  split; [|split].
  - destruct Hdec as [Hs|Hs]; [tauto|]. split; [|tauto].
    rewrite Hcell. intros Hblank. by apply format_f0_not_blank in Hblank.
  - intros Hs. destruct Hdec; tauto.
  - intros self labels. unfold print_cm. by destruct (for_each _ _ _).
Qed.

(** C9, as stated, fails at the threshold 0: the cells holding 0 do not exceed
    it, and they are printed as they are without a threshold. *)
Lemma zero_threshold_hides_nothing :
  get_count two_classes 0 1 = Ok 0
  ∧ 0 ≤ 0
  ∧ cell_text 5 false false (Some 0) 0 1 0 = "    0"%string
  ∧ cell_text 5 false false (Some 0) 0 1 0 ≠ str_repeat " "%char 5
  ∧ print_cm two_classes ["a"%string; "b"%string] false false (Some 0)
    = print_cm two_classes ["a"%string; "b"%string] false false None.
Proof. repeat split; done. Qed.

Lemma cell_blank_iff_witness :
  cell_text 5 false false (Some 1) 0 1 1 = str_repeat " "%char 5
  ∧ cell_text 5 false false (Some 1) 0 1 2 = format_f0 5 2.
Proof.
  split.
  - apply (cell_blank_iff 5 false false (Some 1) 0 1 1).
    right. right. exists 1. split; [reflexivity|]. lia.
  - apply (cell_blank_iff 5 false false (Some 1) 0 1 2).
    intros [[H _]|[[H _]|(t & [= <-] & _ & H)]]; [done|done|lia].
Defined.

(** ** Intersection over union *)

Lemma sum_others_0 f c : sum_others f 0 c = 0.
Proof. reflexivity. Qed.

Lemma sum_others_S f j c :
  sum_others f (S j) c
  = sum_others f j c + (if decide (j ≠ c) then f j else 0).
Proof.
  unfold sum_others. rewrite seq_S, filter_app, fmap_app, sumZ_app. cbn.
  f_equal. case_decide; cbn; lia.
Qed.

(** The two loops that sum the errors: for each [a], the values [val a b]
    over the [b] other than [a] are added to the slot [a] of a list of
    zeros. *)
Lemma accumulate_others (get : Z → Z → result Z) (val : nat → nat → Z)
    (P : Z → Z → Prop) `{∀ a b, Decision (P a b)} n :
  0 ≤ n →
  (∀ a b, 0 ≤ a < n → 0 ≤ b < n →
     get a b = Ok (val (Z.to_nat a) (Z.to_nat b))) →
  (∀ a b, P a b ↔ a ≠ b) →
  ∃ errs,
    for_each (λ errs a,
      for_each (λ errs b,
        if decide (P a b) then v ← get a b; list_iadd errs a v
        else Ok errs) errs (range n))
      (replicate (Z.to_nat n) 0) (range n) = Ok errs
    ∧ length errs = Z.to_nat n
    ∧ ∀ r, (r < Z.to_nat n)%nat →
        errs !! r = Some (sum_others (val r) (Z.to_nat n) r).
Proof.
  intros Hn Hget HP. set (N := Z.to_nat n).
  pose (I := λ (k : Z) (errs : list Z), length errs = N ∧
    ∀ r, (r < N)%nat →
      errs !! r = Some (if decide (Z.of_nat r < k)
                        then sum_others (val r) N r else 0)).
  match goal with |- context [for_each ?body ?acc (range n)] =>
    destruct (for_each_range body I n acc) as (errs & Hrun & Hlen & Herrs)
  end; [done| | |].
  - split; [apply length_replicate|]. intros r Hr.
    rewrite lookup_replicate_2 by done. by rewrite decide_False by lia.
  - intros k errs Hk [Hlen Herrs].
    pose (J := λ (j : Z) (errs : list Z), length errs = N ∧
      ∀ r, (r < N)%nat →
        errs !! r = Some (if decide (Z.of_nat r < k)
                          then sum_others (val r) N r
                          else if decide (Z.of_nat r = k)
                               then sum_others (val r) (Z.to_nat j) r
                               else 0)).
    match goal with |- context [for_each ?body ?acc (range n)] =>
      destruct (for_each_range body J n acc) as (errs' & -> & Hlen' & Herrs')
    end; [done| | |].
    + split; [done|]. intros r Hr. rewrite (Herrs r Hr).
      repeat case_decide; done.
    + intros j errs0 Hj [Hlen0 Herrs0].
      assert (Z.to_nat (j + 1) = S (Z.to_nat j)) as HSj by lia.
      destruct (decide (P k j)) as [HPkj|HPkj].
      * apply HP in HPkj. rewrite (Hget k j) by done. rewrite bind_Ok.
        unfold list_iadd.
        rewrite (list_getitem_nonneg errs0 k _ (proj1 Hk)
                   (Herrs0 (Z.to_nat k) ltac:(lia))), bind_Ok.
        rewrite list_setitem_nonneg by lia.
        eexists. split; [done|]. split; [by rewrite length_insert|].
        intros r Hr. destruct (decide (r = Z.to_nat k)) as [->|Hne].
        -- rewrite list_lookup_insert_eq by lia. f_equal.
           rewrite decide_False, decide_True by lia.
           rewrite decide_False, decide_True by lia.
           rewrite HSj, sum_others_S.
           destruct (decide (Z.to_nat j ≠ Z.to_nat k)); [done|lia].
        -- rewrite list_lookup_insert_ne by done. rewrite (Herrs0 r Hr).
           repeat case_decide; done || lia.
      * assert (k = j) as <-.
        { destruct (decide (k = j)); [done|]. exfalso. by apply HPkj, HP. }
        exists errs0. split; [done|]. split; [done|].
        intros r Hr. rewrite (Herrs0 r Hr).
        repeat case_decide; try (done || lia).
        rewrite HSj, sum_others_S.
        destruct (decide (Z.to_nat k ≠ r)); [lia|]. f_equal. lia.
    + exists errs'. split; [done|]. split; [done|].
      intros r Hr. rewrite (Herrs' r Hr).
      repeat case_decide; done || lia.
  - exists errs. split; [done|]. split; [done|].
    intros r Hr. rewrite (Herrs r Hr). by rewrite decide_True by lia.
Qed.

Lemma list_getitem_fmap_range {B} (g : Z → B) n k :
  0 ≤ k < n → list_getitem (g <$> range n) k = Ok (g k).
Proof.
  intros Hk. apply list_getitem_nonneg; [lia|].
  rewrite list_lookup_fmap. unfold range. rewrite lookup_seqZ_lt by lia.
  cbn. do 2 f_equal. lia.
Qed.

(** C5: on a well-formed object the method returns a list of [classCount]
    scores; the score of class [c] is [diag / denom], where [diag] is the
    cell [(c, c)] and [denom] is [diag + rowErr + colErr], or 1 when [diag] is
    0, in which case the score is 0. *)
Theorem per_class_iou self :
  well_formed self →
  ∃ ious,
    get_intersection_union_per_class self = Ok ious
    ∧ length ious = Z.to_nat (num_classes self)
    ∧ ∀ c, (c < Z.to_nat (num_classes self))%nat →
        get_count self (Z.of_nat c) (Z.of_nat c) = Ok (spec_diag self c)
        ∧ ious !! c = Some (spec_perClassIoU self c)
        ∧ (spec_diag self c = 0 →
           spec_denom self c = 1 ∧ Qeq (spec_perClassIoU self c) 0).
Proof.
  intros Hwf. unfold well_formed in Hwf.
  unfold spec_perClassIoU, spec_denom, spec_rowErr, spec_colErr, spec_diag,
    table_of.
  destruct (confusion_matrix self) as [|m] eqn:Hm; [done|].
  set (n := num_classes self) in *. set (N := Z.to_nat n).
  assert (0 ≤ n) as Hn by (destruct Hwf; lia).
  pose (diag := λ i : Z, cell m (Z.to_nat i) (Z.to_nat i)).
  pose (denom := λ i : Z,
    if decide (diag i = 0) then 1
    else diag i + sum_others (λ p, cell m (Z.to_nat i) p) N (Z.to_nat i)
         + sum_others (λ g, cell m g (Z.to_nat i)) N (Z.to_nat i)).
  unfold get_intersection_union_per_class. rewrite Hm. fold n.
  rewrite (mapM_range _ diag)
    by (intros k Hk; by apply (getitem2_nonneg n)).
  rewrite bind_Ok.
  destruct (accumulate_others (getitem2 (NdMat m)) (λ a b, cell m a b)
              (λ a b, a ≠ b) n)
    as (rows & -> & Hlrows & Hrows);
    [done|by intros; apply (getitem2_nonneg n)|done|].
  rewrite bind_Ok.
  destruct (accumulate_others (λ a b, getitem2 (NdMat m) b a)
              (λ a b, cell m b a) (λ a b, b ≠ a) n)
    as (cols & Hcolsrun & Hlcols & Hcols);
    [done|by intros; apply (getitem2_nonneg n)|intros a b; split; congruence|].
  cbv beta in Hcolsrun. rewrite Hcolsrun, bind_Ok. clear Hcolsrun.
  pose (I := λ (k : Z) (divisor : list Z), length divisor = N ∧
    ∀ i, (i < N)%nat → Z.of_nat i < k →
      divisor !! i = Some (denom (Z.of_nat i))).
  match goal with |- context [for_each ?body ?acc (range n)] =>
    destruct (for_each_range body I n acc) as (divisor & -> & Hldiv & Hdiv)
  end; [done| | |].
  { split; [apply length_replicate|]. intros i _ Hi. lia. }
  { intros k divisor Hk [Hldiv Hdiv].
    rewrite (list_getitem_fmap_range diag) by done. rewrite bind_Ok.
    rewrite (list_getitem_nonneg rows k _ (proj1 Hk)
               (Hrows (Z.to_nat k) ltac:(lia))), bind_Ok.
    rewrite (list_getitem_nonneg cols k _ (proj1 Hk)
               (Hcols (Z.to_nat k) ltac:(lia))), bind_Ok.
    rewrite list_setitem_nonneg by lia. rewrite bind_Ok.
    assert (∀ x (l : list Z), length l = N →
              I (k + 1) (<[Z.to_nat k := x]> l) ↔
              (x = denom k ∧ ∀ i, (i < N)%nat → Z.of_nat i < k →
                 l !! i = Some (denom (Z.of_nat i)))) as Hupd.
    { intros x l Hl. unfold I. rewrite length_insert. split.
      - intros [_ HI]. split.
        + specialize (HI (Z.to_nat k) ltac:(lia) ltac:(lia)).
          rewrite list_lookup_insert_eq in HI by lia.
          rewrite Z2Nat.id in HI by lia. congruence.
        + intros i Hi Hik. rewrite <- (HI i Hi) by lia.
          by rewrite list_lookup_insert_ne by lia.
      - intros [-> HI]. split; [done|]. intros i Hi Hik.
        destruct (decide (i = Z.to_nat k)) as [->|Hne].
        + rewrite list_lookup_insert_eq by lia.
          by rewrite Z2Nat.id by lia.
        + rewrite list_lookup_insert_ne by done. apply HI; lia. }
    destruct (decide (diag k = 0)) as [Hd|Hd].
    - rewrite list_setitem_nonneg by (rewrite length_insert; lia).
      eexists. split; [done|]. rewrite list_insert_insert_eq.
      apply Hupd; [done|]. split; [|done].
      unfold denom. by rewrite decide_True.
    - eexists. split; [done|]. apply Hupd; [done|]. split; [|done].
      unfold denom. by rewrite decide_False. }
  rewrite bind_Ok.
  rewrite (mapM_range _ (λ i, Qdiv (inject_Z (diag i)) (inject_Z (denom i)))).
  2:{ intros k Hk.
      rewrite (list_getitem_fmap_range diag) by done. rewrite bind_Ok.
      rewrite (list_getitem_nonneg divisor k (denom k)), bind_Ok; [done|lia|].
      rewrite (Hdiv (Z.to_nat k)) by lia. by rewrite Z2Nat.id by lia. }
  eexists. split; [done|]. split.
  { unfold range. by rewrite length_fmap, length_seqZ. }
  intros c Hc. split; [|split].
  - rewrite (get_count_nonneg _ _ _ _ Hm) by (done || lia).
    by rewrite Nat2Z.id.
  - rewrite list_lookup_fmap. unfold range. rewrite lookup_seqZ_lt by lia.
    cbn. unfold denom, diag. rewrite Z.add_0_l, !Nat2Z.id. done.
  - intros Hd. rewrite decide_True by done. split; [done|].
    rewrite Hd. reflexivity.
Qed.

Lemma per_class_iou_witness :
  ∃ ious,
    get_intersection_union_per_class three_classes = Ok ious
    ∧ ious !! 0%nat = Some (spec_perClassIoU three_classes 0).
Proof.
  destruct (per_class_iou three_classes) as (ious & Hrun & _ & Hc);
    [solve_shape|].
  exists ious. split; [exact Hrun|].
  apply (Hc 0%nat). cbn. lia.
Defined.

(** The example of the specification: the scores of the table of the main
    block are 1/3, 1/2 and 1/2. *)
Example three_classes_iou :
  get_intersection_union_per_class three_classes
  = Ok [Qmake 1 3; Qmake 1 2; Qmake 1 2].
Proof. reflexivity. Qed.

(** * Further properties of the class *)

(** ** Bounds of [count_predicted] and [get_count] *)

Lemma py_index_out len i :
  ¬ (- Z.of_nat len ≤ i < Z.of_nat len) → py_index len i = Raise IndexError.
Proof. intros Hi. unfold py_index. rewrite !decide_False by lia. done. Qed.

Lemma getitem2_out n m g p :
  square n m →
  ¬ (- n ≤ g < n) ∨ ¬ (- n ≤ p < n) →
  getitem2 (NdMat m) g p = Raise IndexError.
Proof.
  intros Hsq Hout. pose proof Hsq as [Hlen _]. unfold getitem2.
  destruct (decide (- n ≤ g < n)) as [Hg|Hg].
  - rewrite py_index_wrapped by lia. rewrite bind_Ok, Hlen.
    destruct (square_row n m (Z.to_nat (wrapped n g)) Hsq) as (row & -> & Hl).
    { unfold wrapped. case_decide; lia. }
    unfold list_getitem. rewrite py_index_out by lia. done.
  - rewrite py_index_out by lia. done.
Qed.

(** X1: an index below [-classCount] or from [classCount] up, on either axis,
    makes [count_predicted] and [get_count] raise [IndexError]; nothing is
    counted. *)
Theorem index_out_of_range_raises self g p :
  well_formed self →
  ¬ (- num_classes self ≤ g < num_classes self)
  ∨ ¬ (- num_classes self ≤ p < num_classes self) →
  count_predicted self g p = Raise IndexError
  ∧ get_count self g p = Raise IndexError.
Proof.
  intros Hwf Hout. unfold well_formed in Hwf.
  destruct (confusion_matrix self) as [|m] eqn:Hm; [done|].
  unfold count_predicted, get_count. rewrite Hm.
  by rewrite (getitem2_out _ _ _ _ Hwf Hout).
Qed.

Lemma index_out_of_range_raises_witness :
  count_predicted three_classes 3 0 = Raise IndexError
  ∧ get_count three_classes 0 (-4) = Raise IndexError.
Proof.
  split.
  - apply (index_out_of_range_raises three_classes 3 0); [solve_shape|].
    left. cbn. lia.
  - apply (index_out_of_range_raises three_classes 0 (-4)); [solve_shape|].
    right. cbn. lia.
Defined.

(** ** [count_predicted] then [get_count] *)

(** X2: after [count_predicted(g, p)] with indices in [0, classCount),
    [get_count(g, p)] is one more than before, every other cell reads as
    before, and the object keeps its class count and its shape. *)
Theorem count_then_get self g p :
  well_formed self →
  0 ≤ g < num_classes self →
  0 ≤ p < num_classes self →
  ∃ self' v,
    count_predicted self g p = Ok self'
    ∧ get_count self g p = Ok v
    ∧ get_count self' g p = Ok (v + 1)
    ∧ (∀ r c, 0 ≤ r < num_classes self → 0 ≤ c < num_classes self →
         (r, c) ≠ (g, p) → get_count self' r c = get_count self r c)
    ∧ num_classes self' = num_classes self
    ∧ well_formed self'.
Proof.
  intros Hwf Hg Hp. unfold well_formed in Hwf.
  destruct (confusion_matrix self) as [|m] eqn:Hm; [done|].
  pose proof (count_predicted_wrapped self m g p Hm Hwf) as Hrun.
  cbv zeta in Hrun. unfold wrapped in Hrun.
  rewrite !decide_False in Hrun by lia.
  eexists _, (cell m (Z.to_nat g) (Z.to_nat p)).
  split; [apply Hrun; lia|].
  split; [by apply get_count_nonneg|].
  assert (square (num_classes self)
            (updated m (Z.to_nat g) (Z.to_nat p)
               (cell m (Z.to_nat g) (Z.to_nat p) + 1))) as Hsq'
    by (by apply updated_square).
  split; [|split; [|split; [done|done]]].
  - erewrite get_count_nonneg; [|reflexivity|done|done|done].
    rewrite (cell_updated (num_classes self)) by (done || lia).
    by rewrite decide_True.
  - intros r c Hr Hc Hne.
    erewrite get_count_nonneg; [|reflexivity|done|done|done].
    rewrite (get_count_nonneg _ _ _ _ Hm) by done.
    rewrite (cell_updated (num_classes self)) by (done || lia).
    rewrite decide_False; [done|].
    intros [Hr' Hc']. apply Hne. f_equal; lia.
Qed.

Lemma count_then_get_witness :
  ∃ self', count_predicted three_classes 0 1 = Ok self'
           ∧ get_count self' 0 1 = Ok 2.
Proof.
  destruct (count_then_get three_classes 0 1)
    as (self' & v & Hrun & Hold & Hnew & _);
    [solve_shape | cbn; lia | cbn; lia |].
  exists self'. split; [exact Hrun|].
  cbn in Hold. injection Hold as <-. exact Hnew.
Defined.

(** ** Order of the counts *)

Lemma updated_comm n m r1 c1 r2 c2 :
  square n m →
  (r1 < Z.to_nat n)%nat → (c1 < Z.to_nat n)%nat →
  (r2 < Z.to_nat n)%nat → (c2 < Z.to_nat n)%nat →
  let m1 := updated m r1 c1 (cell m r1 c1 + 1) in
  let m2 := updated m r2 c2 (cell m r2 c2 + 1) in
  updated m1 r2 c2 (cell m1 r2 c2 + 1) = updated m2 r1 c1 (cell m2 r1 c1 + 1).
Proof.
  intros Hsq Hr1 Hc1 Hr2 Hc2 m1 m2.
  assert (square n m1) as Hsq1 by (by apply updated_square).
  assert (square n m2) as Hsq2 by (by apply updated_square).
  apply (square_ext n); [by apply updated_square..|].
  intros r c. unfold m1, m2.
  rewrite !(cell_updated n) by (done || by apply updated_square).
  destruct (decide (r = r2 ∧ c = c2)) as [[-> ->]|Hne2].
  - destruct (decide (r2 = r1 ∧ c2 = c1)) as [[-> ->]|Hne1].
    + rewrite !decide_True by tauto. done.
    + done.
  - destruct (decide (r = r1 ∧ c = c1)) as [[-> ->]|Hne1]; [|done].
    rewrite (decide_False (P := r1 = r2 ∧ c1 = c2)) by done. done.
Qed.

(** X3: two counts can be made in either order: the object is the same. *)
Theorem count_predicted_commute self g1 p1 g2 p2 :
  well_formed self →
  - num_classes self ≤ g1 < num_classes self →
  - num_classes self ≤ p1 < num_classes self →
  - num_classes self ≤ g2 < num_classes self →
  - num_classes self ≤ p2 < num_classes self →
  (self1 ← count_predicted self g1 p1; count_predicted self1 g2 p2)
  = (self2 ← count_predicted self g2 p2; count_predicted self2 g1 p1)
  ∧ ∃ self', (self1 ← count_predicted self g1 p1; count_predicted self1 g2 p2)
             = Ok self'.
Proof.
  intros Hwf Hg1 Hp1 Hg2 Hp2. unfold well_formed in Hwf.
  destruct (confusion_matrix self) as [|m] eqn:Hm; [done|].
  pose proof (wrapped_range _ _ Hg1). pose proof (wrapped_range _ _ Hp1).
  pose proof (wrapped_range _ _ Hg2). pose proof (wrapped_range _ _ Hp2).
  rewrite (count_predicted_wrapped self m g1 p1) by done.
  rewrite (count_predicted_wrapped self m g2 p2) by done.
  rewrite !bind_Ok.
  erewrite (count_predicted_wrapped _ _ g2 p2);
    [|reflexivity|by apply updated_square|done|done].
  erewrite (count_predicted_wrapped _ _ g1 p1);
    [|reflexivity|by apply updated_square|done|done].
  cbn [num_classes]. split; [|by eexists].
  do 3 f_equal. apply (updated_comm (num_classes self)); done || lia.
Qed.

Lemma count_predicted_commute_witness :
  (self1 ← count_predicted three_classes 0 1; count_predicted self1 (-1) 2)
  = (self2 ← count_predicted three_classes (-1) 2; count_predicted self2 0 1).
Proof.
  apply (count_predicted_commute three_classes 0 1 (-1) 2);
    [solve_shape | cbn; lia ..].
Defined.

(** ** Resizing *)

Lemma cell_out n m r c :
  square n m → ¬ (Z.of_nat r < n ∧ Z.of_nat c < n) → cell m r c = 0.
Proof.
  intros [Hlen Hrows] Hout. unfold cell.
  destruct (m !! r) as [row|] eqn:Hrow; [|done]. cbn.
  pose proof (Forall_lookup_1 _ _ _ _ Hrows Hrow) as Hl. cbn in Hl.
  apply lookup_lt_Some in Hrow.
  destruct (row !! c) as [x|] eqn:Hx; [|done].
  apply lookup_lt_Some in Hx. lia.
Qed.

Lemma zero_extended_id n m : square n m → zero_extended (Z.to_nat n) m = m.
Proof.
  intros Hsq. assert (0 ≤ n) as Hn by (destruct Hsq; lia).
  apply (square_ext n); [|done|].
  - rewrite <- (Z2Nat.id n) at 1 by done.
    apply (zero_extended_square n); [done|lia].
  - intros r c. rewrite (cell_zero_extended n) by (done || lia).
    case_decide; [done|]. symmetry. by apply (cell_out n).
Qed.

Lemma zero_extended_twice n m a b :
  square n m → n ≤ Z.of_nat a → (a ≤ b)%nat →
  zero_extended b (zero_extended a m) = zero_extended b m.
Proof.
  intros Hsq Ha Hab.
  pose proof (zero_extended_square n a m Hsq Ha) as Hsqa.
  apply (square_ext (Z.of_nat b)).
  - apply (zero_extended_square (Z.of_nat a)); [done|lia].
  - apply (zero_extended_square n); [done|lia].
  - intros r c.
    rewrite (cell_zero_extended (Z.of_nat a)) by (done || lia).
    rewrite !(cell_zero_extended n) by (done || lia).
    repeat case_decide; done || lia.
Qed.

(** X5: resizing to [a] and then to [b >= a] leaves the object that resizing to
    [b] at once leaves, and neither raises. *)
Theorem resize_twice self a b :
  well_formed self →
  num_classes self ≤ a → a ≤ b →
  (self1 ← resize self a; resize self1 b) = resize self b
  ∧ ∃ self', resize self b = Ok self'.
Proof.
  intros Hwf Ha Hab. unfold well_formed in Hwf.
  destruct (confusion_matrix self) as [|m] eqn:Hm; [done|].
  assert (0 ≤ num_classes self) as Hn by (destruct Hwf; lia).
  rewrite (resize_zero_extended self m a Hm Hwf Ha), bind_Ok.
  rewrite (resize_zero_extended self m b Hm Hwf) by lia.
  split; [|by eexists].
  erewrite resize_zero_extended; [|reflexivity| |cbn; lia].
  - cbn [num_classes]. do 3 f_equal.
    apply (zero_extended_twice (num_classes self)); done || lia.
  - cbn [num_classes]. rewrite <- (Z2Nat.id a) at 1 by lia.
    apply (zero_extended_square (num_classes self)); [done|lia].
Qed.

Lemma resize_twice_witness :
  (self1 ← resize three_classes 4; resize self1 6) = resize three_classes 6.
Proof.
  apply (resize_twice three_classes 4 6); [solve_shape | cbn; lia | lia].
Defined.

(** ** Counts are never negative *)

Lemma cell_nonneg m r c : Forall (Forall (λ x, 0 ≤ x)) m → 0 ≤ cell m r c.
Proof.
  intros Hm. unfold cell.
  destruct (m !! r) as [row|] eqn:Hrow; [|done]. cbn.
  destruct (row !! c) as [x|] eqn:Hx; [|done]. cbn.
  pose proof (Forall_lookup_1 _ _ _ _ Hm Hrow) as Hr.
  by apply (Forall_lookup_1 _ _ _ _ Hr Hx).
Qed.

Lemma updated_nonneg m r c x :
  Forall (Forall (λ x, 0 ≤ x)) m → 0 ≤ x →
  Forall (Forall (λ x, 0 ≤ x)) (updated m r c x).
Proof.
  intros Hm Hx. unfold updated. apply Forall_alter; [done|].
  intros row _ Hrow. by apply Forall_insert.
Qed.

Lemma zero_extended_nonneg k m :
  Forall (Forall (λ x, 0 ≤ x)) m →
  Forall (Forall (λ x, 0 ≤ x)) (zero_extended k m).
Proof.
  intros Hm. unfold zero_extended. apply Forall_app. split.
  - apply Forall_fmap. eapply Forall_impl; [exact Hm|].
    intros row Hrow. cbn. apply Forall_app. split; [done|].
    by apply Forall_replicate.
  - apply Forall_replicate. by apply Forall_replicate.
Qed.

(** ** One count, in terms of the table *)

Lemma table_of_eq self m : confusion_matrix self = NdMat m → table_of self = m.
Proof. intros Hm. unfold table_of. by rewrite Hm. Qed.

Lemma get_count_cell self r c :
  well_formed self →
  0 ≤ r < num_classes self → 0 ≤ c < num_classes self →
  get_count self r c = Ok (cell (table_of self) (Z.to_nat r) (Z.to_nat c)).
Proof.
  intros Hwf Hr Hc. unfold well_formed in Hwf.
  destruct (confusion_matrix self) as [|m] eqn:Hm; [done|].
  rewrite (table_of_eq _ _ Hm). by apply get_count_nonneg.
Qed.

Lemma count_predicted_table self g p :
  well_formed self →
  - num_classes self ≤ g < num_classes self →
  - num_classes self ≤ p < num_classes self →
  ∃ self',
    count_predicted self g p = Ok self'
    ∧ num_classes self' = num_classes self
    ∧ well_formed self'
    ∧ (∀ r c, cell (table_of self') r c
              = cell (table_of self) r c
                + if decide (r = Z.to_nat (wrapped (num_classes self) g)
                             ∧ c = Z.to_nat (wrapped (num_classes self) p))
                  then 1 else 0)
    ∧ sum_cells self' = sum_cells self + 1
    ∧ (nonneg self → nonneg self').
Proof.
  intros Hwf Hg Hp. unfold well_formed in Hwf.
  destruct (confusion_matrix self) as [|m] eqn:Hm; [done|].
  pose proof (wrapped_range _ _ Hg). pose proof (wrapped_range _ _ Hp).
  eexists. split; [by apply (count_predicted_wrapped self m)|].
  split; [done|]. split; [by apply updated_square|].
  unfold sum_cells, nonneg. rewrite (table_of_eq _ _ Hm), Hm. cbn.
  split; [|split].
  - intros r c. rewrite (cell_updated (num_classes self)) by (done || lia).
    case_decide as Hrc; [|lia]. destruct Hrc as [-> ->]. done.
  - rewrite (sumZ_updated (num_classes self)) by (done || lia). lia.
  - intros Hnn. apply updated_nonneg; [done|].
    pose proof (cell_nonneg m (Z.to_nat (wrapped (num_classes self) g))
                  (Z.to_nat (wrapped (num_classes self) p)) Hnn). lia.
Qed.

(** ** The resize guard *)

Lemma guard_grown self max_label :
  well_formed self →
  (if decide (max_label > num_classes self)
   then resize self max_label else Ok self)
  = Ok (grown self max_label).
Proof.
  intros Hwf. unfold grown. case_decide; [|done].
  unfold well_formed in Hwf.
  destruct (confusion_matrix self) as [|m] eqn:Hm; [done|].
  rewrite (table_of_eq _ _ Hm). apply resize_zero_extended; done || lia.
Qed.

Lemma grown_properties self max_label :
  well_formed self →
  well_formed (grown self max_label)
  ∧ num_classes (grown self max_label) = Z.max (num_classes self) max_label
  ∧ (∀ r c, cell (table_of (grown self max_label)) r c
            = cell (table_of self) r c)
  ∧ sum_cells (grown self max_label) = sum_cells self
  ∧ (nonneg self → nonneg (grown self max_label)).
Proof.
  intros Hwf. unfold grown. case_decide as Hgt.
  2:{ repeat split; try done. lia. }
  unfold well_formed in Hwf.
  destruct (confusion_matrix self) as [|m] eqn:Hm; [done|].
  assert (0 ≤ num_classes self) as Hn by (destruct Hwf; lia).
  unfold well_formed, sum_cells, nonneg.
  rewrite !(table_of_eq _ _ Hm), Hm. cbn.
  split; [|split; [lia|split; [|split]]].
  - rewrite <- (Z2Nat.id max_label) at 1 by lia.
    apply (zero_extended_square (num_classes self)); [done|lia].
  - intros r c. rewrite (cell_zero_extended (num_classes self)) by (done || lia).
    case_decide; [done|]. symmetry. by apply (cell_out (num_classes self)).
  - apply sumZ_zero_extended.
  - apply zero_extended_nonneg.
Qed.

(** ** Bulk load: the pair that is counted *)

Lemma count_predicted_out self g p :
  well_formed self →
  ¬ (- num_classes self ≤ g < num_classes self)
  ∨ ¬ (- num_classes self ≤ p < num_classes self) →
  count_predicted self g p = Raise IndexError.
Proof.
  intros Hwf Hout. unfold well_formed in Hwf.
  destruct (confusion_matrix self) as [|m] eqn:Hm; [done|].
  unfold count_predicted. rewrite Hm.
  by rewrite (getitem2_out _ _ _ _ Hwf Hout).
Qed.

Lemma wrapped_nonneg n i : 0 ≤ i → wrapped n i = i.
Proof. intros Hi. unfold wrapped. by rewrite decide_False by lia. Qed.

Lemma wrapped_neg n i : i < 0 → wrapped n i = n + i.
Proof. intros Hi. unfold wrapped. by rewrite decide_True by lia. Qed.

Lemma kept_refl self : well_formed self → kept self self 0.
Proof. intros Hwf. repeat split; try done. lia. Qed.

Lemma kept_trans s1 s2 s3 d :
  kept s1 s2 0 → kept s2 s3 d → kept s1 s3 d.
Proof.
  intros (Hwf2 & Hn2 & Hc2 & Hs2 & Hnn2) (Hwf3 & Hn3 & Hc3 & Hs3 & Hnn3).
  split; [done|]. split; [lia|]. split; [|split; [lia|tauto]].
  intros r c. specialize (Hc2 r c). specialize (Hc3 r c). lia.
Qed.

Lemma kept_grown self max_label :
  well_formed self → kept self (grown self max_label) 0.
Proof.
  intros Hwf.
  destruct (grown_properties self max_label Hwf)
    as (Hwf' & Hn & Hcells & Hsum & Hnn).
  split; [done|]. split; [lia|]. split; [|split; [lia|done]].
  intros r c. rewrite Hcells. lia.
Qed.

Section BulkLoadFurther.
Variable py_int : string → option Z.

(** The turn of the loop on a pair of lines that parse, the predicted label
    being valid. *)
Lemma loop_body_valid self line_gt line_cl g c :
  well_formed self →
  py_int line_gt = Some g → py_int line_cl = Some c → 1 ≤ c ≤ 10000 →
  loop_body py_int self line_gt line_cl
  = if decide (g = 0) then Continue (grown self (Z.max g c))
    else match count_predicted (grown self (Z.max g c)) (g - 1) (c - 1) with
         | Raise e => Throw e (grown self (Z.max g c))
         | Ok self2 => Return 0 self2
         end.
Proof.
  intros Hwf Hg Hc Hin. unfold loop_body. rewrite Hg, Hc. cbv zeta.
  rewrite decide_False by lia.
  replace (Z.max (Z.min c 10000) 1) with c by lia.
  by rewrite guard_grown.
Qed.

(** X6: a pair of lines with a ground-truth label [g >= 1] and a predicted label
    [c] in [1, 10000], first in the files, is counted and ends the call with
    status 0: the class count becomes the largest of itself, [g] and [c], the
    cell [(g - 1, c - 1)] is one more than it was (or 1 where the table is
    new), every other cell reads what it did (0 where the table is new), and
    the cells sum to one more. *)
Theorem recorded_pair self line_gt line_cl g c rest_gt rest_cl :
  well_formed self →
  py_int line_gt = Some g → 1 ≤ g →
  py_int line_cl = Some c → 1 ≤ c ≤ 10000 →
  ∃ self',
    build_conf_matrix_from_file py_int self
      (line_gt :: rest_gt) (line_cl :: rest_cl)
    = Returned (Some 0) self'
    ∧ num_classes self' = Z.max (num_classes self) (Z.max g c)
    ∧ well_formed self'
    ∧ (∀ r k, 0 ≤ r < num_classes self' → 0 ≤ k < num_classes self' →
         get_count self' r k
         = Ok (cell (table_of self) (Z.to_nat r) (Z.to_nat k)
               + if decide (r = g - 1 ∧ k = c - 1) then 1 else 0))
    ∧ sum_cells self' = sum_cells self + 1.
Proof.
  intros Hwf Hg Hg1 Hc Hin.
  destruct (grown_properties self (Z.max g c) Hwf)
    as (Hwf1 & Hn1 & Hcells1 & Hsum1 & _).
  destruct (count_predicted_table (grown self (Z.max g c)) (g - 1) (c - 1))
    as (self' & Hrun & Hn' & Hwf' & Hcells' & Hsum' & _); [done|lia|lia|].
  exists self'. unfold build_conf_matrix_from_file. cbn.
  rewrite (loop_body_valid _ _ _ g c) by done.
  rewrite decide_False by lia. rewrite Hrun.
  split; [done|]. split; [lia|]. split; [done|]. split; [|lia].
  intros r k Hr Hk. rewrite get_count_cell by done.
  rewrite Hcells', Hcells1. do 2 f_equal.
  rewrite !wrapped_nonneg by lia.
  repeat case_decide; done || lia.
Qed.

(** X7: the ground-truth label is not validated.  A negative one, [g], with a
    valid predicted label [c], is used as a row index counted from the end:
    with [n'] the class count after the resize guard, the pair is counted in
    row [n' + g - 1] when [g >= 1 - n'] and the call returns 0; below that the
    call raises [IndexError], after the resize. *)
Theorem negative_ground_truth self line_gt line_cl g c rest_gt rest_cl :
  well_formed self →
  py_int line_gt = Some g → g < 0 →
  py_int line_cl = Some c → 1 ≤ c ≤ 10000 →
  let n' := Z.max (num_classes self) c in
  (1 - n' ≤ g →
   ∃ self',
     build_conf_matrix_from_file py_int self
       (line_gt :: rest_gt) (line_cl :: rest_cl)
     = Returned (Some 0) self'
     ∧ num_classes self' = n'
     ∧ get_count self' (n' + g - 1) (c - 1)
       = Ok (cell (table_of self) (Z.to_nat (n' + g - 1)) (Z.to_nat (c - 1))
             + 1)
     ∧ sum_cells self' = sum_cells self + 1)
  ∧ (g < 1 - n' →
     build_conf_matrix_from_file py_int self
       (line_gt :: rest_gt) (line_cl :: rest_cl)
     = Raised IndexError (grown self c)
     ∧ num_classes (grown self c) = n').
Proof.
  intros Hwf Hg Hneg Hc Hin n'.
  destruct (grown_properties self c Hwf)
    as (Hwf1 & Hn1 & Hcells1 & Hsum1 & _).
  fold n' in Hn1.
  unfold build_conf_matrix_from_file. cbn.
  rewrite (loop_body_valid _ _ _ g c) by done.
  rewrite decide_False by lia.
  replace (Z.max g c) with c by lia.
  split.
  - intros Hlow.
    destruct (count_predicted_table (grown self c) (g - 1) (c - 1))
      as (self' & Hrun & Hn' & Hwf' & Hcells' & Hsum' & _); [done|lia|lia|].
    exists self'. rewrite Hrun.
    split; [done|]. split; [lia|]. split; [|lia].
    rewrite get_count_cell by (done || lia).
    rewrite Hcells', Hcells1. do 2 f_equal.
    rewrite wrapped_neg, wrapped_nonneg, Hn1 by lia.
    rewrite decide_True; [done|]. split; f_equal; lia.
  - intros Hlow. rewrite count_predicted_out; [done|done|].
    left. lia.
Qed.

(** X8: a line that [int] cannot read makes the call raise [ValueError], the
    object being as the pairs before left it.  The ground-truth line is read
    first: when it cannot be read, the predicted label is not looked at, be
    it out of range. *)
Theorem unparsable_line_raises self line_gt line_cl :
  py_int line_gt = None
  ∨ (is_Some (py_int line_gt) ∧ py_int line_cl = None) →
  ∀ self0 pre_gt pre_cl rest_gt rest_cl,
    length pre_gt = length pre_cl →
    build_conf_matrix_from_file py_int self0 pre_gt pre_cl
    = Returned None self →
    build_conf_matrix_from_file py_int self0
      (pre_gt ++ line_gt :: rest_gt) (pre_cl ++ line_cl :: rest_cl)
    = Raised ValueError self.
Proof.
  intros Hbad self0 pre_gt pre_cl rest_gt rest_cl Hlen Hpre.
  unfold build_conf_matrix_from_file in *.
  rewrite zip_with_app by done. rewrite (loop_app _ _ _ _ _ Hpre). cbn.
  unfold loop_body.
  destruct Hbad as [->|[[g ->] ->]]; done.
Qed.

(** X9: the lines of the longer file beyond the length of the shorter one are
    never read, and with an empty file on either side the call returns [None]
    and leaves the object as it is. *)
Theorem surplus_lines_ignored self f_gt f_cl :
  build_conf_matrix_from_file py_int self f_gt f_cl
  = build_conf_matrix_from_file py_int self
      (take (length f_cl) f_gt) (take (length f_gt) f_cl)
  ∧ build_conf_matrix_from_file py_int self [] f_cl = Returned None self
  ∧ build_conf_matrix_from_file py_int self f_gt [] = Returned None self.
Proof.
  unfold build_conf_matrix_from_file. split; [|split].
  - by rewrite zip_with_take_both.
  - done.
  - by rewrite zip_with_nil_r.
Qed.

(** ** Bulk load: what every call keeps *)

Lemma loop_body_step self line_gt line_cl :
  well_formed self →
  match loop_body py_int self line_gt line_cl with
  | Continue self' => kept self self' 0
  | Return v self' => (v = -1 ∧ self' = self) ∨ (v = 0 ∧ kept self self' 1)
  | Throw e self' => kept self self' 0
  end.
Proof.
  intros Hwf.
  destruct (py_int line_gt) as [g|] eqn:Hg.
  2:{ unfold loop_body. rewrite Hg. by apply kept_refl. }
  destruct (py_int line_cl) as [c|] eqn:Hc.
  2:{ unfold loop_body. rewrite Hg, Hc. by apply kept_refl. }
  destruct (decide (1 ≤ c ≤ 10000)) as [Hin|Hout].
  2:{ rewrite (loop_body_invalid _ _ _ _ g c) by done. by left. }
  rewrite (loop_body_valid _ _ _ g c) by done.
  pose proof (kept_grown self (Z.max g c) Hwf) as Hk.
  pose proof Hk as (Hwf1 & _).
  case_decide; [done|].
  destruct (decide (- num_classes (grown self (Z.max g c)) ≤ g - 1
                    < num_classes (grown self (Z.max g c)))) as [Hidx|Hidx].
  - destruct (grown_properties self (Z.max g c) Hwf) as (_ & Hn1 & _).
    destruct (count_predicted_table (grown self (Z.max g c)) (g - 1) (c - 1))
      as (self' & -> & Hn' & Hwf' & Hcells' & Hsum' & Hnn'); [done|done|lia|].
    right. split; [done|]. apply (kept_trans _ _ _ _ Hk).
    split; [done|]. split; [lia|]. split; [|done].
    intros r k. rewrite Hcells'. case_decide; lia.
  - rewrite count_predicted_out by (done || by left). done.
Qed.

Lemma loop_kept self pairs :
  well_formed self →
  kept self (object_after (loop py_int self pairs))
    (counted (loop py_int self pairs)).
Proof.
  revert self. induction pairs as [|[lg lc] pairs IH]; intros self Hwf.
  - cbn. by apply kept_refl.
  - cbn. pose proof (loop_body_step self lg lc Hwf) as Hstep.
    destruct (loop_body py_int self lg lc) as [self1|v self1|e self1].
    + apply (kept_trans _ self1); [done|]. apply IH. by destruct Hstep.
    + destruct Hstep as [[-> ->]|[-> Hk]]; [by apply kept_refl|done].
    + done.
Qed.

(** X10: whatever the two files hold, and however the call ends (a status,
    [None] or an exception), it leaves an object of the right shape, with a
    class count that has not gone down and no cell below what it was; the
    cells sum to one more than before when the status is 0 and to the same
    otherwise, so that a call counts at most one pair; and counts that were
    not negative are not negative. *)
Theorem bulk_load_keeps self f_gt f_cl :
  well_formed self →
  let o := build_conf_matrix_from_file py_int self f_gt f_cl in
  well_formed (object_after o)
  ∧ num_classes self ≤ num_classes (object_after o)
  ∧ (∀ r c, cell (table_of self) r c ≤ cell (table_of (object_after o)) r c)
  ∧ sum_cells (object_after o)
    = sum_cells self + (match o with Returned (Some 0) _ => 1 | _ => 0 end)
  ∧ (nonneg self → nonneg (object_after o)).
Proof.
  intros Hwf o. exact (loop_kept self (zip f_gt f_cl) Hwf).
Qed.

(** X11: the call falls off the loop and returns [None] exactly when every pair of
    lines is a skipped one: ground truth 0 and a predicted label in
    [1, 10000]. *)
Theorem returns_None_iff_all_skipped self f_gt f_cl :
  well_formed self →
  (∃ self', build_conf_matrix_from_file py_int self f_gt f_cl
            = Returned None self')
  ↔ Forall (skipped py_int) (zip f_gt f_cl).
Proof.
  unfold build_conf_matrix_from_file. generalize (zip f_gt f_cl) as pairs.
  intros pairs. revert self.
  induction pairs as [|[lg lc] pairs IH]; intros self Hwf.
  - split; [by constructor|]. intros _. by exists self.
  - cbn. split.
    + intros [self' Hrun].
      destruct (loop_body py_int self lg lc) as [self1| |] eqn:Hbody;
        [|done..].
      pose proof (loop_body_step self lg lc Hwf) as Hstep.
      rewrite Hbody in Hstep. destruct Hstep as [Hwf1 _].
      apply loop_body_continue in Hbody as (Hg & c & Hc & Hin & _).
      constructor.
      * split; [done|]. by exists c.
      * apply (IH self1 Hwf1). by exists self'.
    + intros [[Hg (c & Hc & Hin)] Hrest]%Forall_cons. cbn in Hg, Hc.
      rewrite (loop_body_valid _ _ _ 0 c) by done.
      rewrite decide_True by done.
      apply IH; [|done]. by apply grown_properties.
Qed.
End BulkLoadFurther.

Lemma recorded_pair_witness :
  ∃ self',
    build_conf_matrix_from_file int_ascii three_classes
      [line "4"; line "1"] [line "2"; line "1"]
    = Returned (Some 0) self'
    ∧ num_classes self' = 4
    ∧ get_count self' 3 1 = Ok 1
    ∧ get_count self' 0 1 = Ok 1.
Proof.
  destruct (recorded_pair int_ascii three_classes (line "4") (line "2") 4 2
              [line "1"] [line "1"])
    as (self' & Hrun & Hn & _ & Hcells & _);
    [solve_shape | reflexivity | lia | reflexivity | lia |].
  exists self'. split; [exact Hrun|]. split; [exact Hn|]. split.
  - apply (Hcells 3 1); rewrite Hn; cbn; lia.
  - apply (Hcells 0 1); rewrite Hn; cbn; lia.
Defined.

Lemma negative_ground_truth_witness :
  (∃ self',
     build_conf_matrix_from_file int_ascii three_classes
       [line "-1"] [line "2"]
     = Returned (Some 0) self'
     ∧ get_count self' 1 1 = Ok 2)
  ∧ build_conf_matrix_from_file int_ascii three_classes
      [line "-9"] [line "5"]
    = Raised IndexError (grown three_classes 5).
Proof.
  split.
  - destruct (negative_ground_truth int_ascii three_classes
                (line "-1") (line "2") (-1) 2 [] [])
      as [Hwrap _];
      [solve_shape | reflexivity | lia | reflexivity | lia |].
    destruct Hwrap as (self' & Hrun & _ & Hcell & _); [cbn; lia|].
    exists self'. split; [exact Hrun | exact Hcell].
  - destruct (negative_ground_truth int_ascii three_classes
                (line "-9") (line "5") (-9) 5 [] [])
      as [_ Hraise];
      [solve_shape | reflexivity | lia | reflexivity | lia |].
    apply Hraise. cbn. lia.
Defined.

Lemma unparsable_line_raises_witness :
  build_conf_matrix_from_file int_ascii two_classes
    [line "0"; line "one"] [line "1"; line "0"]
  = Raised ValueError two_classes.
Proof.
  apply (unparsable_line_raises int_ascii two_classes (line "one") (line "0")
           ltac:(left; reflexivity) two_classes [line "0"] [line "1"] [] []);
    reflexivity.
Defined.

Lemma bulk_load_keeps_witness :
  sum_cells
    (object_after
       (build_conf_matrix_from_file int_ascii three_classes
          [line "0"; line "2"; line "3"] [line "7"; line "2"; line "3"]))
  = sum_cells three_classes + 1.
Proof.
  apply (bulk_load_keeps int_ascii three_classes
           [line "0"; line "2"; line "3"] [line "7"; line "2"; line "3"]).
  solve_shape.
Defined.

Lemma returns_None_iff_all_skipped_witness :
  ∃ self',
    build_conf_matrix_from_file int_ascii two_classes
      [line "0"; line "0"] [line "3"; line "1"]
    = Returned None self'.
Proof.
  apply (returns_None_iff_all_skipped int_ascii two_classes
           [line "0"; line "0"] [line "3"; line "1"]); [solve_shape|].
  constructor; [split; [reflexivity | exists 3; split; [reflexivity | lia]] |].
  constructor; [split; [reflexivity | exists 1; split; [reflexivity | lia]] |].
  constructor.
Defined.

(** ** Overall accuracy *)

Lemma sum_upto_S f n : sum_upto f (S n) = sum_upto f n + f n.
Proof.
  unfold sum_upto. rewrite seq_S, fmap_app, sumZ_app. cbn. lia.
Qed.

Lemma sum_upto_ext f g n :
  (∀ i, (i < n)%nat → f i = g i) → sum_upto f n = sum_upto g n.
Proof.
  intros Hfg. induction n as [|n IH]; [done|].
  rewrite !sum_upto_S, IH, Hfg by (intros; apply Hfg; lia) || lia. done.
Qed.

Lemma sum_upto_mono f g n :
  (∀ i, (i < n)%nat → f i ≤ g i) → sum_upto f n ≤ sum_upto g n.
Proof.
  intros Hfg. induction n as [|n IH]; [done|].
  rewrite !sum_upto_S. pose proof (Hfg n ltac:(lia)).
  assert (sum_upto f n ≤ sum_upto g n) by (apply IH; intros; apply Hfg; lia).
  lia.
Qed.

Lemma sum_upto_nonneg f n : (∀ i, 0 ≤ f i) → 0 ≤ sum_upto f n.
Proof.
  intros Hf. induction n as [|n IH]; [done|].
  rewrite sum_upto_S. specialize (Hf n). lia.
Qed.

Lemma sum_upto_term f n i :
  (∀ i, 0 ≤ f i) → (i < n)%nat → f i ≤ sum_upto f n.
Proof.
  intros Hf Hi. induction n as [|n IH]; [lia|].
  rewrite sum_upto_S. pose proof (sum_upto_nonneg f n Hf).
  destruct (decide (i = n)) as [->|Hne]; [lia|].
  specialize (IH ltac:(lia)). specialize (Hf n). lia.
Qed.

Lemma sumZ_sum_upto (l : list Z) :
  sumZ l = sum_upto (λ i, default 0 (l !! i)) (length l).
Proof.
  induction l as [|x l IH] using rev_ind; [done|].
  rewrite sumZ_app, length_app, Nat.add_comm. cbn [length Nat.add].
  rewrite sum_upto_S, lookup_app_r, Nat.sub_diag by lia. cbn.
  rewrite IH. f_equal; [|unfold sumZ; cbn; lia].
  apply sum_upto_ext. intros i Hi. by rewrite lookup_app_l.
Qed.

Lemma sumZ_concat_sum_upto (m : list (list Z)) :
  sumZ (concat m) = sum_upto (λ r, sumZ (default [] (m !! r))) (length m).
Proof.
  induction m as [|row m IH] using rev_ind; [done|].
  rewrite concat_app, sumZ_app, length_app, Nat.add_comm. cbn [length Nat.add].
  rewrite sum_upto_S, lookup_app_r, Nat.sub_diag by lia. cbn.
  rewrite app_nil_r, IH. f_equal.
  apply sum_upto_ext. intros i Hi. by rewrite lookup_app_l.
Qed.

(** The sum of the cells of a square table, row by row. *)
Lemma sum_cells_rows self :
  well_formed self →
  sum_cells self
  = sum_upto (λ r, sum_upto (cell (table_of self) r)
                     (Z.to_nat (num_classes self)))
      (Z.to_nat (num_classes self)).
Proof.
  intros Hwf. unfold well_formed in Hwf. unfold sum_cells.
  destruct (confusion_matrix self) as [|m] eqn:Hm; [done|].
  rewrite (table_of_eq _ _ Hm). pose proof Hwf as [Hlen Hrows].
  rewrite sumZ_concat_sum_upto.
  replace (length m) with (Z.to_nat (num_classes self)) by lia.
  apply sum_upto_ext. intros r Hr.
  destruct (square_row _ _ r Hwf Hr) as (row & Hrow & Hl).
  rewrite Hrow. cbn. rewrite sumZ_sum_upto.
  replace (length row) with (Z.to_nat (num_classes self)) by lia.
  apply sum_upto_ext. intros c Hc. unfold cell. by rewrite Hrow.
Qed.

(** The two sums of the method. *)
Lemma get_overall_accuracy_eq self :
  well_formed self →
  get_overall_accuracy self
  = Ok (Qdiv (inject_Z (trace self))
          (inject_Z (if decide (sum_cells self = 0) then 1
                     else sum_cells self))).
Proof.
  intros Hwf. rewrite (sum_cells_rows self Hwf). unfold trace.
  unfold well_formed in Hwf.
  destruct (confusion_matrix self) as [|m] eqn:Hm; [done|].
  rewrite (table_of_eq _ _ Hm).
  set (n := num_classes self) in *. set (N := Z.to_nat n).
  assert (0 ≤ n) as Hn by (destruct Hwf; lia).
  unfold get_overall_accuracy. rewrite Hm. fold n.
  pose (I := λ (k : Z) (acc : Z * Z),
    acc.1 = sum_upto (λ c, cell m c c) (Z.to_nat k)
    ∧ acc.2 = sum_upto (λ r, sum_upto (cell m r) N) (Z.to_nat k)).
  match goal with |- context [for_each ?body ?acc (range n)] =>
    destruct (for_each_range body I n acc) as ([md av] & -> & Hmd & Hav)
  end; [done|done| |].
  - intros k [md av] Hk [Hmd Hav]. cbn in Hmd, Hav.
    pose (J := λ (j : Z) (acc : Z * Z),
      acc.1 = md + (if decide (k < j) then cell m (Z.to_nat k) (Z.to_nat k)
                    else 0)
      ∧ acc.2 = av + sum_upto (cell m (Z.to_nat k)) (Z.to_nat j)).
    match goal with |- context [for_each ?body ?acc (range n)] =>
      destruct (for_each_range body J n acc) as ([md' av'] & -> & Hmd' & Hav')
    end; [done| | |].
    + unfold J. cbn.
      split; [rewrite decide_False by lia; lia|].
      change (Z.to_nat 0) with 0%nat. unfold sum_upto, sumZ. cbn. lia.
    + intros j [md0 av0] Hj [Hmd0 Hav0]. cbn in Hmd0, Hav0.
      rewrite (getitem2_nonneg n) by done. rewrite bind_Ok.
      assert (Z.to_nat (j + 1) = S (Z.to_nat j)) as HSj by lia.
      destruct (decide (k = j)) as [<-|Hne].
      * rewrite bind_Ok.
        eexists. split; [done|]. unfold J. cbn. split.
        -- rewrite Hmd0, decide_False, decide_True by lia. lia.
        -- rewrite Hav0, HSj, sum_upto_S. lia.
      * eexists. split; [done|]. unfold J. cbn. split.
        -- rewrite Hmd0. repeat case_decide; lia.
        -- rewrite Hav0, HSj, sum_upto_S. lia.
    + cbn in Hmd', Hav'. eexists. split; [done|]. unfold I. cbn.
      replace (Z.to_nat (k + 1)) with (S (Z.to_nat k)) by lia.
      split; rewrite sum_upto_S.
      * rewrite Hmd', Hmd, decide_True by lia. done.
      * rewrite Hav', Hav. done.
  - cbn in Hmd, Hav. rewrite bind_Ok. cbv zeta. subst md av. done.
Qed.

(** X12: on an object of the right shape [get_overall_accuracy] raises nothing
    and returns the sum of the diagonal cells over the sum of all cells, the
    divisor being 1 when the cells sum to 0. *)
Theorem overall_accuracy_value self :
  well_formed self →
  get_overall_accuracy self
  = Ok (Qdiv (inject_Z (trace self))
          (inject_Z (if decide (sum_cells self = 0) then 1
                     else sum_cells self))).
Proof. apply get_overall_accuracy_eq. Qed.

Lemma overall_accuracy_value_witness :
  get_overall_accuracy three_classes = Ok (Qdiv (inject_Z 3) (inject_Z 5)).
Proof. apply (overall_accuracy_value three_classes). solve_shape. Defined.

Lemma trace_le_sum self :
  well_formed self → nonneg self → 0 ≤ trace self ≤ sum_cells self.
Proof.
  intros Hwf Hnn. rewrite (sum_cells_rows self Hwf). unfold trace.
  split.
  - apply sum_upto_nonneg. intros c. by apply cell_nonneg.
  - apply sum_upto_mono. intros r Hr.
    apply (sum_upto_term (cell (table_of self) r)); [|done].
    intros c. by apply cell_nonneg.
Qed.

Lemma Qdiv_unit_interval t d :
  0 ≤ t ≤ d → 0 < d →
  Qle 0 (Qdiv (inject_Z t) (inject_Z d))
  ∧ Qle (Qdiv (inject_Z t) (inject_Z d)) 1
  ∧ (Qeq (Qdiv (inject_Z t) (inject_Z d)) 0 ↔ t = 0)
  ∧ (Qeq (Qdiv (inject_Z t) (inject_Z d)) 1 ↔ t = d).
Proof.
  intros Ht Hd. destruct d as [|p|p]; [lia| |lia].
  unfold Qle, Qeq, Qdiv, Qmult, Qinv, inject_Z. cbn.
  rewrite !Z.mul_1_r. rewrite ?Pos.mul_1_l. lia.
Qed.

(** X13: with counts that are not negative the overall accuracy lies between 0
    and 1; it is 0 when nothing is on the diagonal, in particular on a table
    without any count, and 1 exactly when some pair is counted and every
    counted pair is on the diagonal. *)
Theorem overall_accuracy_bounds self :
  well_formed self → nonneg self →
  ∃ q, get_overall_accuracy self = Ok q
    ∧ Qle 0 q ∧ Qle q 1
    ∧ (Qeq q 0 ↔ trace self = 0)
    ∧ (sum_cells self = 0 → Qeq q 0)
    ∧ (Qeq q 1 ↔ 0 < sum_cells self ∧ trace self = sum_cells self).
Proof.
  intros Hwf Hnn. eexists. split; [by apply get_overall_accuracy_eq|].
  pose proof (trace_le_sum self Hwf Hnn) as Htr.
  destruct (decide (sum_cells self = 0)) as [H0|H0].
  - assert (trace self = 0) as Ht by lia. rewrite Ht, H0.
    repeat split; try done; lia.
  - destruct (Qdiv_unit_interval (trace self) (sum_cells self))
      as (Hge & Hle & Hz & Hone); [lia|lia|].
    split; [done|]. split; [done|]. split; [done|]. split; [done|].
    rewrite Hone. lia.
Qed.

Lemma overall_accuracy_bounds_witness :
  ∃ q, get_overall_accuracy three_classes = Ok q ∧ Qle 0 q ∧ Qle q 1.
Proof.
  destruct (overall_accuracy_bounds three_classes)
    as (q & Hrun & Hge & Hle & _);
    [solve_shape | repeat constructor; lia |].
  exists q. split; [exact Hrun|]. split; [exact Hge | exact Hle].
Defined.

(** ** Intersection over union: range, and the effect of a resize *)

(** The divisor loop: the sum of the three lists, or 1 where the diagonal
    is 0. *)
Lemma divisor_loop (diag rows cols : list Z) (d r c : Z → Z) n :
  0 ≤ n →
  (∀ k, 0 ≤ k < n → list_getitem diag k = Ok (d k)) →
  (∀ k, 0 ≤ k < n → list_getitem rows k = Ok (r k)) →
  (∀ k, 0 ≤ k < n → list_getitem cols k = Ok (c k)) →
  ∃ divisor,
    for_each (λ divisor i,
      d ← list_getitem diag i;
      r ← list_getitem rows i;
      c ← list_getitem cols i;
      divisor ← list_setitem divisor i (d + r + c);
      if decide (d = 0) then list_setitem divisor i 1 else Ok divisor)
      (replicate (Z.to_nat n) 0) (range n) = Ok divisor
    ∧ ∀ k, 0 ≤ k < n →
        list_getitem divisor k
        = Ok (if decide (d k = 0) then 1 else d k + r k + c k).
Proof.
  intros Hn Hd Hr Hc.
  pose (I := λ (k : Z) (divisor : list Z), length divisor = Z.to_nat n ∧
    ∀ i, 0 ≤ i < k →
      divisor !! Z.to_nat i
      = Some (if decide (d i = 0) then 1 else d i + r i + c i)).
  match goal with |- context [for_each ?body ?acc (range n)] =>
    destruct (for_each_range body I n acc) as (divisor & Hrun & Hlen & Hdiv)
  end; [done| | |].
  - split; [apply length_replicate|]. intros i Hi. lia.
  - intros k divisor Hk [Hlen Hdiv].
    rewrite Hd, bind_Ok, Hr, bind_Ok, Hc, bind_Ok by done.
    rewrite list_setitem_nonneg, bind_Ok by lia.
    assert (∀ x, x = (if decide (d k = 0) then 1 else d k + r k + c k) →
              I (k + 1) (<[Z.to_nat k := x]> divisor)) as Hstep.
    { intros x ->. split; [by rewrite length_insert|]. intros i Hi.
      destruct (decide (i = k)) as [->|Hne].
      - by rewrite list_lookup_insert_eq by lia.
      - rewrite list_lookup_insert_ne by lia. apply Hdiv. lia. }
    destruct (decide (d k = 0)) as [H0|H0].
    + rewrite list_setitem_nonneg by (rewrite length_insert; lia).
      eexists. split; [done|]. rewrite list_insert_insert_eq.
      by apply Hstep.
    + eexists. split; [done|]. by apply Hstep.
  - exists divisor. split; [done|]. intros k Hk.
    apply list_getitem_nonneg; [lia|]. by apply Hdiv.
Qed.

(** The list of scores in closed form. *)
Lemma iou_values self :
  well_formed self →
  get_intersection_union_per_class self
  = Ok ((λ i, spec_perClassIoU self (Z.to_nat i)) <$> range (num_classes self)).
Proof.
  intros Hwf. unfold well_formed in Hwf.
  unfold spec_perClassIoU, spec_denom, spec_rowErr, spec_colErr, spec_diag.
  destruct (confusion_matrix self) as [|m] eqn:Hm; [done|].
  rewrite (table_of_eq _ _ Hm).
  set (n := num_classes self) in *.
  assert (0 ≤ n) as Hn by (destruct Hwf; lia).
  pose (d := λ i : Z, cell m (Z.to_nat i) (Z.to_nat i)).
  unfold get_intersection_union_per_class. rewrite Hm. fold n.
  rewrite (mapM_range _ d) by (intros k Hk; by apply (getitem2_nonneg n)).
  rewrite bind_Ok.
  destruct (accumulate_others (getitem2 (NdMat m)) (λ a b, cell m a b)
              (λ a b, a ≠ b) n)
    as (rows & -> & _ & Hrows);
    [done|by intros; apply (getitem2_nonneg n)|done|].
  rewrite bind_Ok.
  destruct (accumulate_others (λ a b, getitem2 (NdMat m) b a)
              (λ a b, cell m b a) (λ a b, b ≠ a) n)
    as (cols & Hcolsrun & _ & Hcols);
    [done|by intros; apply (getitem2_nonneg n)|intros a b; split; congruence|].
  cbv beta in Hcolsrun. rewrite Hcolsrun, bind_Ok. clear Hcolsrun.
  destruct (divisor_loop (d <$> range n) rows cols d
              (λ k, sum_others (λ p, cell m (Z.to_nat k) p) (Z.to_nat n)
                      (Z.to_nat k))
              (λ k, sum_others (λ g, cell m g (Z.to_nat k)) (Z.to_nat n)
                      (Z.to_nat k)) n)
    as (divisor & -> & Hdiv); [done| | | |].
  - intros k Hk. by apply list_getitem_fmap_range.
  - intros k Hk. apply list_getitem_nonneg; [lia|]. apply Hrows. lia.
  - intros k Hk. apply list_getitem_nonneg; [lia|]. apply Hcols. lia.
  - rewrite bind_Ok. apply mapM_range. intros k Hk.
    rewrite (list_getitem_fmap_range d) by done. rewrite bind_Ok.
    rewrite Hdiv by done. done.
Qed.

Lemma sum_others_nonneg f n c : (∀ i, 0 ≤ f i) → 0 ≤ sum_others f n c.
Proof.
  intros Hf. induction n as [|n IH]; [done|].
  rewrite sum_others_S. specialize (Hf n). case_decide; lia.
Qed.

(** X14: with counts that are not negative every score lies between 0 and 1; the
    score of a class is 0 exactly when its diagonal cell is 0, and 1 exactly
    when its diagonal cell is positive and the rest of its row and of its
    column is 0. *)
Theorem iou_bounds self :
  well_formed self → nonneg self →
  ∃ ious,
    get_intersection_union_per_class self = Ok ious
    ∧ length ious = Z.to_nat (num_classes self)
    ∧ ∀ c q, ious !! c = Some q →
        Qle 0 q ∧ Qle q 1
        ∧ (Qeq q 0 ↔ spec_diag self c = 0)
        ∧ (Qeq q 1 ↔ 0 < spec_diag self c ∧ spec_rowErr self c = 0
                     ∧ spec_colErr self c = 0).
Proof.
  intros Hwf Hnn. eexists. split; [by apply iou_values|].
  split; [unfold range; by rewrite length_fmap, length_seqZ|].
  intros c q Hq. rewrite list_lookup_fmap in Hq.
  destruct (range (num_classes self) !! c) as [i|] eqn:Hi; [|done].
  apply lookup_seqZ in Hi as [-> Hc]. cbn in Hq. injection Hq as <-.
  rewrite Z.add_0_l, Nat2Z.id. unfold spec_perClassIoU, spec_denom.
  assert (0 ≤ spec_diag self c) as Hd by (by apply cell_nonneg).
  assert (0 ≤ spec_rowErr self c) as Hr
    by (apply sum_others_nonneg; intros i; by apply cell_nonneg).
  assert (0 ≤ spec_colErr self c) as Hcl
    by (apply sum_others_nonneg; intros i; by apply cell_nonneg).
  destruct (decide (spec_diag self c = 0)) as [H0|H0].
  - rewrite H0. repeat split; try done; lia.
  - destruct (Qdiv_unit_interval (spec_diag self c)
                (spec_diag self c + spec_rowErr self c + spec_colErr self c))
      as (Hge & Hle & Hz & Hone); [lia|lia|].
    split; [done|]. split; [done|]. split; [done|].
    rewrite Hone. lia.
Qed.

Lemma iou_bounds_witness :
  ∃ ious, get_intersection_union_per_class three_classes = Ok ious
          ∧ length ious = 3%nat.
Proof.
  destruct (iou_bounds three_classes) as (ious & Hrun & Hlen & _);
    [solve_shape | repeat constructor; lia |].
  exists ious. split; [exact Hrun | exact Hlen].
Defined.

Lemma sum_upto_extend f n n' :
  (n ≤ n')%nat → (∀ i, (n ≤ i)%nat → f i = 0) →
  sum_upto f n' = sum_upto f n.
Proof.
  intros Hle Hf. induction Hle as [|n' Hle IH]; [done|].
  rewrite sum_upto_S, IH, Hf by lia. lia.
Qed.

Lemma sum_others_ext f g n c :
  (∀ i, f i = g i) → sum_others f n c = sum_others g n c.
Proof.
  intros Hfg. induction n as [|n IH]; [done|].
  by rewrite !sum_others_S, IH, Hfg.
Qed.

Lemma sum_others_extend f n n' c :
  (n ≤ n')%nat → (∀ i, (n ≤ i)%nat → f i = 0) →
  sum_others f n' c = sum_others f n c.
Proof.
  intros Hle Hf. induction Hle as [|n' Hle IH]; [done|].
  rewrite sum_others_S, IH, Hf by lia. case_decide; lia.
Qed.

Lemma cell_outside self r c :
  well_formed self →
  ¬ (Z.of_nat r < num_classes self ∧ Z.of_nat c < num_classes self) →
  cell (table_of self) r c = 0.
Proof.
  intros Hwf Hout. unfold well_formed in Hwf.
  destruct (confusion_matrix self) as [|m] eqn:Hm; [done|].
  rewrite (table_of_eq _ _ Hm). by apply (cell_out (num_classes self)).
Qed.

Lemma resize_grown self n' :
  well_formed self → num_classes self < n' →
  resize self n' = Ok (grown self n').
Proof.
  intros Hwf Hlt. rewrite <- (guard_grown self n' Hwf).
  by rewrite decide_True by lia.
Qed.

Lemma fmap_replicate_const {A B} (f : A → B) (l : list A) y :
  Forall (λ x, f x = y) l → f <$> l = replicate (length l) y.
Proof. induction 1 as [|x l Hx _ IH]; [done|]. cbn. by rewrite Hx, IH. Qed.

(** X15: a resize does not change the overall accuracy. *)
Theorem accuracy_after_resize self n' :
  well_formed self →
  num_classes self < n' →
  (self' ← resize self n'; get_overall_accuracy self')
  = get_overall_accuracy self
  ∧ ∃ q, get_overall_accuracy self = Ok q.
Proof.
  intros Hwf Hlt.
  destruct (grown_properties self n' Hwf) as (Hwf' & Hn' & Hcells & Hsum & _).
  assert (0 ≤ num_classes self) as Hn.
  { unfold well_formed in Hwf. destruct (confusion_matrix self); [done|].
    destruct Hwf. lia. }
  rewrite (resize_grown self n' Hwf Hlt), bind_Ok.
  rewrite !get_overall_accuracy_eq by done.
  split; [|by eexists]. rewrite Hsum. do 3 f_equal.
  unfold trace. rewrite Hn'.
  rewrite (sum_upto_ext _ (λ c, cell (table_of self) c c))
    by (intros; apply Hcells).
  apply sum_upto_extend; [lia|].
  intros i Hi. apply cell_outside; [done|]. lia.
Qed.

Lemma accuracy_after_resize_witness :
  (self' ← resize three_classes 7; get_overall_accuracy self')
  = get_overall_accuracy three_classes.
Proof.
  apply (accuracy_after_resize three_classes 7); [solve_shape | cbn; lia].
Defined.

(** X16: a resize leaves the scores of the classes there were as they are and
    gives every new class the score 0. *)
Theorem iou_after_resize self n' :
  well_formed self →
  num_classes self < n' →
  (self' ← resize self n'; get_intersection_union_per_class self')
  = (ious ← get_intersection_union_per_class self;
     Ok (ious ++ replicate (Z.to_nat (n' - num_classes self)) (Qmake 0 1)))
  ∧ ∃ ious, get_intersection_union_per_class self = Ok ious.
Proof.
  intros Hwf Hlt.
  destruct (grown_properties self n' Hwf) as (Hwf' & Hn' & Hcells & _).
  assert (0 ≤ num_classes self) as Hn.
  { unfold well_formed in Hwf. destruct (confusion_matrix self); [done|].
    destruct Hwf. lia. }
  rewrite (resize_grown self n' Hwf Hlt), bind_Ok.
  rewrite !iou_values by done. rewrite bind_Ok.
  split; [|by eexists]. f_equal. rewrite Hn'.
  replace (Z.max (num_classes self) n')
    with (num_classes self + (n' - num_classes self)) by lia.
  unfold range. rewrite seqZ_app, fmap_app by lia. f_equal.
  - apply list_fmap_ext. intros k i [-> Hi]%lookup_seqZ.
    rewrite Z.add_0_l, Nat2Z.id.
    unfold spec_perClassIoU, spec_denom, spec_rowErr, spec_colErr, spec_diag.
    rewrite Hcells, Hn'.
    rewrite (sum_others_ext _ (λ p, cell (table_of self) k p))
      by (intros; apply Hcells).
    rewrite (sum_others_ext (λ g, cell (table_of (grown self n')) g k)
               (λ g, cell (table_of self) g k))
      by (intros; apply Hcells).
    rewrite !(sum_others_extend _ (Z.to_nat (num_classes self))
                (Z.to_nat (Z.max (num_classes self) n')));
      [done|lia| |lia|].
    + intros j Hj. apply cell_outside; [done|]. lia.
    + intros j Hj. apply cell_outside; [done|]. lia.
  - rewrite (fmap_replicate_const _ _ (Qmake 0 1)).
    + by rewrite length_seqZ.
    + apply Forall_seqZ. intros i Hi.
      unfold spec_perClassIoU, spec_denom, spec_diag.
      rewrite Hcells, cell_outside by (done || lia).
      rewrite decide_True by done. reflexivity.
Qed.

Lemma iou_after_resize_witness :
  (self' ← resize three_classes 5; get_intersection_union_per_class self')
  = Ok [Qmake 1 3; Qmake 1 2; Qmake 1 2; Qmake 0 1; Qmake 0 1].
Proof.
  destruct (iou_after_resize three_classes 5) as [Heq _];
    [solve_shape | cbn; lia |].
  rewrite Heq. reflexivity.
Defined.

(** ** The printed table: text and failure *)

Lemma str_app_assoc (a b c : string) :
  String.append (String.append a b) c = String.append a (String.append b c).
Proof. induction a as [|ch a IH]; cbn; [done|]. by rewrite IH. Qed.

Lemma str_app_nil_r (a : string) : String.append a EmptyString = a.
Proof. induction a as [|ch a IH]; cbn; [done|]. by rewrite IH. Qed.

(** A loop that appends a piece of text for each element. *)
Lemma for_each_append {A} (body : string → A → result string)
    (g : A → string) (l : list A) (acc : string) :
  (∀ out x, x ∈ l → body out x = Ok (String.append out (g x))) →
  for_each body acc l = Ok (String.append acc (str_concat (g <$> l))).
Proof.
  revert acc. induction l as [|x l IH]; intros acc Hbody.
  - cbn. by rewrite str_app_nil_r.
  - cbn. rewrite Hbody by left. rewrite bind_Ok.
    rewrite IH by (intros; apply Hbody; by right).
    by rewrite str_app_assoc.
Qed.

Lemma elem_of_enumerate {A} (l : list A) i x :
  (i, x) ∈ enumerate l → 0 ≤ i < Z.of_nat (length l).
Proof.
  unfold enumerate, range. intros Hin%elem_of_zip_l.
  apply elem_of_seqZ in Hin. lia.
Qed.

(** X17: with no more labels than classes the call raises nothing, leaves the
    object as it is, and prints the header line followed by one line for each
    label, made of the label and of the cells of the first [len(labels)]
    columns of its row. *)
Theorem print_cm_text self labels hide_zeroes hide_diagonal hide_threshold :
  well_formed self →
  Z.of_nat (length labels) ≤ num_classes self →
  print_cm self labels hide_zeroes hide_diagonal hide_threshold
  = Returned
      (table_text self labels hide_zeroes hide_diagonal hide_threshold) self.
Proof.
  intros Hwf Hlen. unfold print_cm.
  change (String.append (String.append "    " _) _) with (header_line labels).
  rewrite (for_each_append _
    (λ '(i, label1),
       row_line self labels hide_zeroes hide_diagonal hide_threshold
         i label1)); [done|].
  intros out [i label1] Hi%elem_of_enumerate.
  rewrite (for_each_append _
    (λ j, String.append
            (cell_text (columnwidth_of labels) hide_zeroes hide_diagonal
               hide_threshold i j
               (cell (table_of self) (Z.to_nat i) (Z.to_nat j)))
            (String " "%char EmptyString))).
  - rewrite bind_Ok. unfold row_line. by rewrite !str_app_assoc.
  - intros out' j Hj%elem_of_seqZ.
    unfold getitem_tuple, get_confusion_matrix.
    change (getitem2 (confusion_matrix self) i j) with (get_count self i j).
    rewrite get_count_cell by (done || lia). done.
Qed.

Lemma print_cm_text_witness :
  print_cm three_classes ["a"%string; "b"%string] true false None
  = Returned (table_text three_classes ["a"%string; "b"%string] true false None)
      three_classes.
Proof.
  apply (print_cm_text three_classes ["a"%string; "b"%string] true false None);
    [solve_shape | cbn; lia].
Defined.

(** X18: with more labels than classes the call raises [IndexError]: the first
    row is printed up to the last class and the next column is outside the
    table. *)
Theorem print_cm_too_many_labels
    self labels hide_zeroes hide_diagonal hide_threshold :
  well_formed self →
  num_classes self < Z.of_nat (length labels) →
  print_cm self labels hide_zeroes hide_diagonal hide_threshold
  = Raised IndexError self.
Proof.
  intros Hwf Hlen. unfold print_cm.
  assert (0 ≤ num_classes self) as Hn.
  { unfold well_formed in Hwf. destruct (confusion_matrix self); [done|].
    destruct Hwf. lia. }
  destruct labels as [|label0 labels]; [cbn in Hlen; lia|].
  set (L := Z.of_nat (length (label0 :: labels))) in *.
  assert (enumerate (label0 :: labels)
          = (0, label0) :: zip (seqZ 1 (Z.pred L)) labels) as ->.
  { unfold enumerate, range. fold L. rewrite seqZ_cons by lia. done. }
  assert (range L
          = range (num_classes self)
            ++ num_classes self
               :: seqZ (num_classes self + 1) (L - num_classes self - 1)) as HL.
  { unfold range.
    replace L with (num_classes self + (L - num_classes self)) at 1 by lia.
    rewrite seqZ_app by lia. f_equal. rewrite seqZ_cons by lia.
    do 2 f_equal; lia. }
  cbn [for_each]. rewrite HL, for_each_app.
  rewrite (for_each_append _
    (λ j, String.append
            (cell_text (columnwidth_of (label0 :: labels)) hide_zeroes
               hide_diagonal hide_threshold 0 j
               (cell (table_of self) 0 (Z.to_nat j)))
            (String " "%char EmptyString))).
  - rewrite bind_Ok. cbn [for_each].
    unfold getitem_tuple, get_confusion_matrix.
    unfold well_formed in Hwf.
    destruct (confusion_matrix self) as [|m] eqn:Hm; [done|].
    rewrite (getitem2_out (num_classes self)); [done|done|]. right. lia.
  - intros out' j Hj%elem_of_seqZ.
    unfold getitem_tuple, get_confusion_matrix.
    change (getitem2 (confusion_matrix self) 0 j) with (get_count self 0 j).
    rewrite get_count_cell by (done || lia). done.
Qed.

Lemma print_cm_too_many_labels_witness :
  print_cm two_classes ["test1"%string; "test2"%string; "test2"%string]
    false false None
  = Raised IndexError two_classes.
Proof.
  apply (print_cm_too_many_labels two_classes
           ["test1"%string; "test2"%string; "test2"%string] false false None);
    [solve_shape | cbn; lia].
Defined.

(** ** The printed table: widths *)

Lemma str_length_app (a b : string) :
  String.length (String.append a b) = (String.length a + String.length b)%nat.
Proof. induction a as [|ch a IH]; cbn; [done|]. by rewrite IH. Qed.

Lemma str_length_repeat ch n : String.length (str_repeat ch n) = n.
Proof. induction n as [|n IH]; cbn; [done|]. by rewrite IH. Qed.

Lemma rjust_length w s :
  String.length (rjust w s) = Nat.max w (String.length s).
Proof. unfold rjust. rewrite str_length_app, str_length_repeat. lia. Qed.

Lemma cell_text_cases w hide_zeroes hide_diagonal hide_threshold i j v :
  cell_text w hide_zeroes hide_diagonal hide_threshold i j v
  = str_repeat " "%char w
  ∨ cell_text w hide_zeroes hide_diagonal hide_threshold i j v
    = format_f0 w v.
Proof.
  unfold cell_text.
  destruct hide_zeroes, hide_diagonal, hide_threshold as [t|];
    try destruct (truthy (Some t));
    try destruct (decide (v ≠ 0)); try destruct (decide (i ≠ j));
    try destruct (decide (v > t)); auto.
Qed.

(** X19: the columns line up: the column width is at least 5 and at least the
    length of every label, so that every label fills exactly one column
    width; a cell, blank or not, is never narrower than the column width, and
    is exactly as wide when the digits (and sign) of its value fit in it. *)
Theorem column_alignment labels hide_zeroes hide_diagonal hide_threshold :
  let w := columnwidth_of labels in
  (5 ≤ w)%nat
  ∧ (∀ label, label ∈ labels → String.length (rjust w label) = w)
  ∧ ∀ i j v,
      (w ≤ String.length
             (cell_text w hide_zeroes hide_diagonal hide_threshold i j v))%nat
      ∧ ((String.length (NilZero.string_of_int (Z.to_int v)) ≤ w)%nat →
         String.length
           (cell_text w hide_zeroes hide_diagonal hide_threshold i j v) = w).
Proof.
  intros w. split; [|split].
  - apply max_list_elem_of_le. apply elem_of_app. right. by left.
  - intros label Hin. rewrite rjust_length.
    assert (String.length label ≤ w)%nat; [|lia].
    apply max_list_elem_of_le. apply elem_of_app. left.
    by apply list_elem_of_fmap_2.
  - intros i j v.
    destruct (cell_text_cases w hide_zeroes hide_diagonal hide_threshold i j v)
      as [-> | ->].
    + rewrite str_length_repeat. split; [lia|done].
    + unfold format_f0. rewrite rjust_length. split; lia.
Qed.

Lemma column_alignment_witness :
  String.length
    (rjust (columnwidth_of ["test1"%string; "a"%string]) "a"%string)
  = columnwidth_of ["test1"%string; "a"%string].
Proof.
  apply (column_alignment ["test1"%string; "a"%string] false false None).
  right. left.
Defined.

(** ** What the table holds after a sequence of counts *)

(** X4: after a sequence of calls [count_predicted(g, p)] with indices in
    [0, classCount), every cell [(r, c)] holds what it held before plus the
    number of calls made with [(r, c)]: the table counts, for each pair of
    classes, the samples of the one reported as the other. *)
Theorem count_all_cells self calls :
  well_formed self →
  Forall (λ '(g, p), 0 ≤ g < num_classes self ∧ 0 ≤ p < num_classes self)
    calls →
  ∃ self',
    count_all self calls = Ok self'
    ∧ num_classes self' = num_classes self
    ∧ well_formed self'
    ∧ ∀ r c, 0 ≤ r < num_classes self → 0 ≤ c < num_classes self →
        get_count self' r c
        = Ok (cell (table_of self) (Z.to_nat r) (Z.to_nat c)
              + Z.of_nat (length (filter (λ call, call = (r, c)) calls))).
Proof.
  intros Hwf Hcalls. revert self Hwf Hcalls.
  induction calls as [|[g p] calls IH]; intros self Hwf Hcalls.
  - exists self. cbn. repeat split; try done.
    intros r c Hr Hc. rewrite get_count_cell by done. f_equal. lia.
  - apply Forall_cons in Hcalls as [[Hg Hp] Hcalls].
    destruct (count_predicted_table self g p)
      as (self1 & Hrun & Hn1 & Hwf1 & Hcells1 & _); [done|lia|lia|].
    destruct (IH self1) as (self' & Hrun' & Hn' & Hwf' & Hcells');
      [done|by rewrite Hn1|].
    exists self'. unfold count_all in *. cbn [for_each].
    rewrite Hrun, bind_Ok, Hrun'.
    split; [done|]. split; [congruence|]. split; [done|].
    intros r c Hr Hc. rewrite Hcells' by (rewrite Hn1; done).
    rewrite Hcells1, !wrapped_nonneg by lia. f_equal.
    rewrite filter_cons.
    destruct (decide ((g, p) = (r, c))) as [[= -> ->]|Hne].
    + rewrite decide_True by done. cbn [length]. lia.
    + rewrite decide_False; [lia|]. intros [Hr' Hc']. apply Hne.
      f_equal; lia.
Qed.

Lemma count_all_cells_witness :
  ∃ self',
    count_all two_classes [(0, 1); (1, 1); (0, 1)] = Ok self'
    ∧ get_count self' 0 1 = Ok 2.
Proof.
  destruct (count_all_cells two_classes [(0, 1); (1, 1); (0, 1)])
    as (self' & Hrun & _ & _ & Hcells);
    [solve_shape | repeat constructor; cbn; lia |].
  exists self'. split; [exact Hrun|].
  apply (Hcells 0 1); cbn; lia.
Defined.

(** ** Bulk load: the lines the call comes to, and the others *)

(** C3: the claim is that every pair of lines whose predicted label is
    outside [1, 10000] aborts the load with the status [-1].  The [return 0]
    of line 97 is inside the loop: on two files of two lines, ground truth 1
    and 1, predicted 1 and 0, the call counts the first pair and returns 0;
    the second pair, whose predicted label 0 fails
    [max(1, min(0, 10000)) = 0], is never read, and no [-1] is returned. *)
Theorem invalid_label_after_record_unchecked :
  build_conf_matrix_from_file int_ascii two_classes
    [line "1"; line "1"] [line "1"; line "0"]
  = Returned (Some 0)
      {| num_classes := 2; confusion_matrix := NdMat [[1; 0]; [0; 0]] |}
  ∧ int_ascii (line "1") = Some 1
  ∧ int_ascii (line "0") = Some 0
  ∧ Z.max 1 (Z.min 0 10000) ≠ 0.
Proof. repeat split; done. Qed.

Section BulkLoadLines.
Variable py_int : string → option Z.

(** A load that has ended goes no further; one that fell through goes on with
    the object it left. *)
Lemma loop_app_cases self pre rest :
  loop py_int self (pre ++ rest)
  = match loop py_int self pre with
    | Returned None self1 => loop py_int self1 rest
    | ended => ended
    end.
Proof.
  revert self. induction pre as [|[lg lc] pre IH]; intros self; cbn; [done|].
  destruct (loop_body py_int self lg lc); [apply IH|done..].
Qed.

(** C8, amended: take a pair of lines at any position [k] of the two files,
    with ground-truth label 0 and an integer predicted label [c], and compare
    the load of the lines before it with the load up to and including it.  In
    every case no cell is incremented for that line: every cell reads what it
    did (a cell outside the table reading 0), and the cells sum to what they
    did.  When the load has ended before that line (a status was returned or
    an exception raised at an earlier pair) the line is not read and nothing
    changes.  When the load comes to the line (it fell through the pairs
    before it): with [c] outside [1, 10000] the call returns [-1] and the
    object is untouched; with [c] valid the pair is skipped, the object is
    untouched when [c] is at most the class count, and otherwise the table is
    first resized to [c] (the class count becomes [c], the new cells
    are 0). *)
Theorem ground_truth_zero_line self f_gt f_cl k line_gt line_cl c :
  well_formed self →
  f_gt !! k = Some line_gt →
  f_cl !! k = Some line_cl →
  py_int line_gt = Some 0 →
  py_int line_cl = Some c →
  let before :=
    build_conf_matrix_from_file py_int self (take k f_gt) (take k f_cl) in
  let after :=
    build_conf_matrix_from_file py_int self
      (take (S k) f_gt) (take (S k) f_cl) in
  (∀ r c', cell (table_of (object_after after)) r c'
           = cell (table_of (object_after before)) r c')
  ∧ sum_cells (object_after after) = sum_cells (object_after before)
  ∧ match before with
    | Returned None self_k =>
        if decide (1 ≤ c ≤ 10000)
        then
          ∃ self',
            after = Returned None self'
            ∧ well_formed self'
            ∧ (if decide (num_classes self_k < c)
               then resize self_k c = Ok self'
                    ∧ num_classes self' = c
                    ∧ (∀ g p, 0 ≤ g < c → 0 ≤ p < c →
                         ¬ (g < num_classes self_k ∧ p < num_classes self_k) →
                         get_count self' g p = Ok 0)
               else self' = self_k)
        else
          after = Returned (Some (-1)) self_k
          ∧ build_conf_matrix_from_file py_int self f_gt f_cl
            = Returned (Some (-1)) self_k
    | ended =>
        after = ended
        ∧ build_conf_matrix_from_file py_int self f_gt f_cl = ended
    end.
Proof.
  intros Hwf Hgt Hcl Hg Hc. unfold build_conf_matrix_from_file.
  assert (zip f_gt f_cl !! k = Some (line_gt, line_cl)) as Hk.
  { apply lookup_zip_with_Some. by exists line_gt, line_cl. }
  rewrite <- !zip_with_take.
  pose proof (loop_kept py_int self (take k (zip f_gt f_cl)) Hwf) as Hkept.
  assert (loop py_int self (zip f_gt f_cl)
          = match loop py_int self (take k (zip f_gt f_cl)) with
            | Returned None self1 =>
                loop py_int self1
                  ((line_gt, line_cl) :: drop (S k) (zip f_gt f_cl))
            | ended => ended
            end) as ->.
  { rewrite <- (take_drop k (zip f_gt f_cl)) at 1.
    rewrite (drop_S _ _ _ Hk). apply loop_app_cases. }
  rewrite (take_S_r _ _ _ Hk), loop_app_cases.
  destruct (loop py_int self (take k (zip f_gt f_cl)))
    as [[v|] self_k|e self_k]; [done| |done].
  destruct Hkept as [Hwfk _]. cbn [object_after] in *. cbn [loop].
  destruct (decide (1 ≤ c ≤ 10000)) as [Hin|Hout].
  - rewrite (loop_body_valid py_int self_k line_gt line_cl 0 c) by done.
    rewrite decide_True by done.
    replace (Z.max 0 c) with c by lia.
    destruct (grown_properties self_k c Hwfk)
      as (Hwf' & Hn' & Hcells & Hsum & _).
    cbn [object_after]. split; [done|]. split; [done|].
    exists (grown self_k c). split; [done|]. split; [done|].
    destruct (decide (num_classes self_k < c)) as [Hlt|Hge].
    + split; [by apply resize_grown|]. split; [lia|].
      intros g p Hg' Hp' Hnew.
      rewrite get_count_cell by (done || lia).
      rewrite Hcells, cell_outside by (done || lia). done.
    + unfold grown. by rewrite decide_False by lia.
  - rewrite (loop_body_invalid py_int self_k line_gt line_cl 0 c) by done.
    done.
Qed.
End BulkLoadLines.

Lemma ground_truth_zero_line_witness :
  ∃ self',
    build_conf_matrix_from_file int_ascii two_classes
      [line "0"; line "0"] [line "1"; line "5"]
    = Returned None self'
    ∧ resize two_classes 5 = Ok self'
    ∧ sum_cells self' = sum_cells two_classes.
Proof.
  destruct (ground_truth_zero_line int_ascii two_classes
              [line "0"; line "0"; line "3"] [line "1"; line "5"; line "3"]
              1 (line "0") (line "5") 5)
    as (_ & Hsum & Hcase);
    [solve_shape | reflexivity | reflexivity | reflexivity | reflexivity |].
  cbn [take] in Hsum, Hcase.
  change (build_conf_matrix_from_file int_ascii two_classes
            [line "0"] [line "1"])
    with (Returned (A := option Z) None two_classes) in Hsum, Hcase.
  cbv iota beta in Hcase. rewrite decide_True in Hcase by lia.
  destruct Hcase as (self' & Hafter & _ & Hgrow).
  rewrite decide_True in Hgrow by (cbn; lia).
  destruct Hgrow as (Hresize & _).
  exists self'. split; [exact Hafter|]. split; [exact Hresize|].
  rewrite Hafter in Hsum. exact Hsum.
Defined.
